(** * Stock analysis: fetcher and scoring engine

    A shallow embedding of [stock_data.py] (class [IndianStockDataFetcher])
    and [stock_analyzer.py] (class [StockAnalyzer]), and the properties of
    the scoring engine and of its views.

    Conventions of the embedding.
    - A pandas [DataFrame] is the list of its rows, in index order; the
      index is the default [RangeIndex], which is what
      [pd.DataFrame(list_of_dicts)] builds.  A frame always carries its
      schema: the column-less frame [pd.DataFrame([])] is not represented.
    - A float is a [float64]: an exact rational, an infinity, or NaN.
      Comparisons and special values follow IEEE 754.  The scoring step
      is taken on the exact values: its sums are of integer scores times
      the four weights, and [overall_score_binary64] checks on machine
      doubles that the rounding of each operation leaves the overall
      score as it is.  The price arithmetic of the fetcher and the
      percentage of the profit-margin filter are taken in doubles
      ([double], [dsub], [dmul], ...), each operation correctly rounded;
      [double_binary64] compares them with the machine.  The group means
      of [get_sector_analysis], whose summation is pandas' own, are a
      parameter of the function.
    - An integer column is [int64]: its sum wraps around modulo 2^64.
    - pandas operations ([rank], [nlargest], [groupby], [agg], [round],
      [sort_values]) are defined here after their documented behaviour. *)

From Stdlib Require Import QArith Qround Qabs ZArith Lia Lqa.
From Stdlib Require PrimFloat Uint63.
From stdpp Require Import gmap strings list sorting.

(** ** Floats *)

Module Float.

Inductive float64 : Type :=
  | Finite (q : Q)
  | PosInf
  | NegInf
  | NaN.

Definition of_Z (z : Z) : float64 := Finite (inject_Z z).

(** [pd.isna] *)
Definition isna (x : float64) : bool :=
  match x with NaN => true | _ => false end.

Definition Qlt_bool (x y : Q) : bool := negb (Qle_bool y x).

(** [a < b]: false as soon as one side is NaN. *)
Definition flt (a b : float64) : bool :=
  match a, b with
  | NaN, _ | _, NaN => false
  | Finite x, Finite y => Qlt_bool x y
  | NegInf, NegInf => false
  | NegInf, _ => true
  | PosInf, _ => false
  | Finite _, PosInf => true
  | Finite _, NegInf => false
  end.

(** [a <= b] *)
Definition fle (a b : float64) : bool :=
  match a, b with
  | NaN, _ | _, NaN => false
  | Finite x, Finite y => Qle_bool x y
  | NegInf, _ => true
  | PosInf, PosInf => true
  | PosInf, _ => false
  | Finite _, PosInf => true
  | Finite _, NegInf => false
  end.

Definition fgt (a b : float64) : bool := flt b a.
Definition fge (a b : float64) : bool := fle b a.

Definition fopp (a : float64) : float64 :=
  match a with
  | Finite x => Finite (- x)
  | PosInf => NegInf
  | NegInf => PosInf
  | NaN => NaN
  end.

Definition fadd (a b : float64) : float64 :=
  match a, b with
  | NaN, _ | _, NaN => NaN
  | Finite x, Finite y => Finite (x + y)
  | PosInf, NegInf | NegInf, PosInf => NaN
  | PosInf, _ | _, PosInf => PosInf
  | NegInf, _ | _, NegInf => NegInf
  end.

Definition fsub (a b : float64) : float64 := fadd a (fopp b).

(** Sign of a rational as a comparison with zero. *)
Definition Qsign (x : Q) : comparison := (0 ?= x)%Q.

Definition signed_inf (s1 s2 : comparison) : float64 :=
  match s1, s2 with
  | Eq, _ | _, Eq => NaN
  | Lt, Lt | Gt, Gt => PosInf
  | _, _ => NegInf
  end.

Definition fsign (a : float64) : comparison :=
  match a with
  | Finite x => Qsign x
  | PosInf => Lt
  | NegInf => Gt
  | NaN => Eq
  end.

Definition fmul (a b : float64) : float64 :=
  match a, b with
  | NaN, _ | _, NaN => NaN
  | Finite x, Finite y => Finite (x * y)
  | _, _ => signed_inf (fsign a) (fsign b)
  end.

(** Division of numpy floats: a zero divisor gives an infinity or NaN, it
    does not raise. *)
Definition fdiv (a b : float64) : float64 :=
  match a, b with
  | NaN, _ | _, NaN => NaN
  | Finite x, Finite y =>
      if Qeq_bool y 0 then signed_inf (Qsign x) Lt else Finite (x / y)
  | Finite _, _ => Finite 0
  | _, Finite y =>
      signed_inf (fsign a) (match Qsign y with Eq => Lt | s => s end)
  | _, _ => NaN
  end.

(** Rounding of a rational to the nearest integer, halves to the even
    neighbour ([numpy.rint]). *)
Definition rint (x : Q) : Z :=
  let f := Qfloor x in
  match (x - inject_Z f ?= 1 # 2)%Q with
  | Lt => f
  | Gt => (f + 1)%Z
  | Eq => if Z.even f then f else (f + 1)%Z
  end.

(** [round(x, 2)] on a rational: [rint(x * 100) / 100]. *)
Definition Qround2 (x : Q) : Q := (inject_Z (rint (x * 100)) / 100)%Q.

(** [round(x, 2)] on a float. *)
Definition round2 (a : float64) : float64 :=
  match a with
  | Finite x => Finite (Qround2 x)
  | _ => a
  end.


Definition count_notna (l : list float64) : nat :=
  length (filter (λ x, isna x = false) l).


(** *** Doubles

    The finite values of a float column are IEEE doubles: rationals
    [m * 2^e] with a significand of 53 bits. *)

(** [2^e] *)
Definition Qpow2 (e : Z) : Q :=
  if (0 <=? e)%Z then inject_Z (2 ^ e) else 1 # Z.to_pos (2 ^ (- e)).

(** The binary exponent of a positive rational [q]: the [e] with
    [2^e <= q < 2^(e+1)]. *)
Definition exponent (q : Q) : Z :=
  let e0 := (Z.log2 (Qnum q) - Z.log2 (Zpos (Qden q)))%Z in
  if Qle_bool (Qpow2 e0) q then e0 else (e0 - 1)%Z.

(** The double nearest to a rational, halves to the even significand:
    what a decimal literal denotes, and how the result of each operation
    is rounded.  Below [2^-1022] the spacing stays [2^-1074]; from
    [2^1024] on the result is an infinity. *)
Definition double (q : Q) : float64 :=
  match Qnum q with
  | Z0 => Finite 0
  | _ =>
      let a := Qabs q in
      let e := Z.max (exponent a) (-1022) in
      let ulp := Qpow2 (e - 52) in
      let r := Qred (inject_Z (rint (a / ulp)) * ulp) in
      if Qle_bool (Qpow2 1024) r
      then (if Qle_bool 0 q then PosInf else NegInf)
      else Finite (if Qle_bool 0 q then r else Qred (- r))
  end.

(** A float read as the double it stands for: a value that is a double
    already, or a decimal such as 0.29 that stands for the double nearest
    to it. *)
Definition as_double (a : float64) : float64 :=
  match a with
  | Finite q => double q
  | _ => a
  end.

(** The four operations on doubles: the exact result, rounded. *)
Definition dadd (a b : float64) : float64 := as_double (fadd a b).

Definition dsub (a b : float64) : float64 := as_double (fsub a b).

Definition dmul (a b : float64) : float64 := as_double (fmul a b).

Definition ddiv (a b : float64) : float64 := as_double (fdiv a b).

(** [numpy.rint] on a double. *)
Definition frint (a : float64) : float64 :=
  match a with
  | Finite x => Finite (inject_Z (rint x))
  | _ => a
  end.

(** [round(x, 2)] on a double, as numpy computes it:
    [rint(x * 100) / 100], each step in doubles. *)
Definition dround2 (a : float64) : float64 :=
  ddiv (frint (dmul a (of_Z 100))) (of_Z 100).

(** The sum of a float column as pandas' grouped mean accumulates it: a
    compensated summation in frame order. *)
Fixpoint kahan_sum (col : list float64) (sumx compensation : float64)
  : float64 :=
  match col with
  | [] => sumx
  | val :: col =>
      let y := dsub val compensation in
      let t := dadd sumx y in
      let compensation := dsub (dsub t sumx) y in
      let compensation := if isna compensation then of_Z 0 else compensation in
      kahan_sum col t compensation
  end.

(** The mean of a group in doubles; NaN entries are skipped. *)
Definition dmean (col : list float64) : float64 :=
  let vals := filter (λ x, isna x = false) (as_double <$> col) in
  match length vals with
  | O => NaN
  | n => ddiv (kahan_sum vals (of_Z 0) (of_Z 0)) (of_Z (Z.of_nat n))
  end.

(** The IEEE double nearest to a rational with a small non-negative
    numerator, as a machine float: the correctly rounded quotient of two
    integers that are doubles themselves. *)
Definition binary64 (q : Q) : PrimFloat.float :=
  PrimFloat.div (PrimFloat.of_uint63 (Uint63.of_Z (Qnum q)))
                (PrimFloat.of_uint63 (Uint63.of_Z (Zpos (Qden q)))).

(** Python's [sum] of a list of doubles: additions from the left,
    started at 0. *)
Definition binary64_sum (ws : list Q) : PrimFloat.float :=
  fold_left (fun acc w => PrimFloat.add acc (binary64 w)) ws (binary64 0).

(** The weighted sum of four integer scores in doubles, with the
    parentheses of the source expression. *)
Definition binary64_weighted (pe vol mom prof : Z) (w_pe w_vol w_mom w_prof : Q)
  : PrimFloat.float :=
  let term (s : Z) (w : Q) :=
    PrimFloat.mul (binary64 (inject_Z s)) (binary64 w) in
  PrimFloat.add
    (PrimFloat.add (PrimFloat.add (term pe w_pe) (term vol w_vol))
       (term mom w_mom))
    (term prof w_prof).

(** [numpy.rint] on a double between 0 and 2^51: adding and taking away
    2^52 rounds to the nearest integer, halves to even. *)
Definition binary64_rint (x : PrimFloat.float) : PrimFloat.float :=
  let big := binary64 (inject_Z (2 ^ 52)) in
  PrimFloat.sub (PrimFloat.add x big) big.

(** [round(x, 2)] on a double, as numpy computes it:
    [rint(x * 100) / 100]. *)
Definition binary64_round2 (x : PrimFloat.float) : PrimFloat.float :=
  PrimFloat.div (binary64_rint (PrimFloat.mul x (binary64 100)))
                (binary64 100).

(** [double] and the operations on doubles against the machine: each
    test rounds decimals to doubles, computes on both sides, and compares
    the machine float with the float of the rational result. *)
Definition double_agrees (q : Q) : bool :=
  match double q with
  | Finite x => PrimFloat.eqb (binary64 q) (binary64 x)
  | _ => false
  end.

Definition operation_agrees (exact : float64 → float64 → float64)
    (machine : PrimFloat.float → PrimFloat.float → PrimFloat.float)
    (pq : Q * Q) : bool :=
  match exact (double pq.1) (double pq.2) with
  | Finite z =>
      PrimFloat.eqb (machine (binary64 pq.1) (binary64 pq.2)) (binary64 z)
  | _ => false
  end.

Definition dround2_agrees (q : Q) : bool :=
  match dround2 (double q) with
  | Finite z => PrimFloat.eqb (binary64_round2 (binary64 q)) (binary64 z)
  | _ => false
  end.

Definition decimal_samples : list Q :=
  [ 0.29; 0.1; 0.2; 0.3; 0.05; 0.15; 1.015; 2.675; 0.285; 6.55; 6.6; 6.575;
    7.2; 9.1; 12.5; 28.9; 100; 250.35; 3000; 1 # 3; 2 # 7 ]%Q.

Definition decimal_pairs : list (Q * Q) :=
  [ (100, 0.29); (0.3, 0.1); (6.6, 6.55); (13.15, 2); (0.3, 0.2);
    (250.35, 248.1); (248.1, 2.25); (100, 1.015); (101, 100);
    (657, 100); (0.7, 0.1); (3, 1 # 3) ]%Q.

End Float.

Export Float.

(** ** Records of the dataset *)

(** One row of the frame built by the fetcher: the dict returned by
    [get_stock_details_yfinance].  A cell of a text column is a string or
    missing ([None]); a missing cell of a float column is NaN; [volume] is
    a cell of an [int64] column. *)
Record StockRecord : Type := {
  symbol : string;
  companyName : option string;
  currentPrice : float64;
  volume : Z;
  marketCap : float64;
  pe_ratio : float64;
  pb_ratio : float64;
  roe : float64;
  profit_margin : float64;
  momentum_30d : float64;
  sector : option string;
  industry : option string
}.

(** A row after [calculate_overall_score] has added its five columns. *)
Record ScoredRecord : Type := {
  base : StockRecord;
  pe_score : Z;
  volume_score : Z;
  momentum_score : Z;
  profit_score : Z;
  overall_score : Q
}.

(** ** The data fetcher ([stock_data.py]) *)

Module Fetcher.

(** The keys that [get_stock_details_yfinance] reads from [stock.info];
    [None] is a key the provider did not send.  A key sent with the value
    [None] is [Some None] for a text, and [Some NaN] for a number, which
    is what its cell shows in a float column. *)
Record Info : Type := {
  longName : option (option string);
  info_marketCap : option float64;
  trailingPE : option float64;
  priceToBook : option float64;
  returnOnEquity : option float64;
  profitMargins : option float64;
  info_sector : option (option string);
  info_industry : option (option string)
}.

(** One day of [stock.history(period="1mo")]. *)
Record Bar : Type := { Close : float64; Volume : Z }.

(** [symbols[:k]] *)
Definition slice_to {A} (k : Z) (l : list A) : list A :=
  if (0 <=? k)%Z then take (Z.to_nat k) l
  else take (Z.to_nat (Z.of_nat (length l) + k)) l.

(** [dict.get(key, default)] *)
Definition get {A} (field : option A) (dflt : A) : A := default dflt field.

Definition nifty50_symbols : list string :=
  [ "ADANIPORTS"; "ASIANPAINT"; "AXISBANK"; "BAJAJ-AUTO"; "BAJFINANCE";
    "BAJAJFINSV"; "BPCL"; "BHARTIARTL"; "BRITANNIA"; "CIPLA";
    "COALINDIA"; "DIVISLAB"; "DRREDDY"; "EICHERMOT"; "GRASIM";
    "HCLTECH"; "HDFCBANK"; "HDFCLIFE"; "HEROMOTOCO"; "HINDALCO";
    "HINDUNILVR"; "ICICIBANK"; "ITC"; "INDUSINDBK"; "INFY";
    "JSWSTEEL"; "KOTAKBANK"; "LT"; "M&M"; "MARUTI";
    "NTPC"; "NESTLEIND"; "ONGC"; "POWERGRID"; "RELIANCE";
    "SBILIFE"; "SBIN"; "SUNPHARMA"; "TCS"; "TATACONSUM";
    "TATAMOTORS"; "TATASTEEL"; "TECHM"; "TITAN"; "ULTRACEMCO";
    "UPL"; "WIPRO" ]%string.

(** The record built from a provider answer, [None] when the price
    history is empty (lines 60 to 85 of [stock_data.py]).  The closing
    prices are doubles, and so is the arithmetic on them. *)
Definition build_record (symbol : string) (info : Info) (hist : list Bar)
  : option StockRecord :=
  match hist, last hist with
  | first :: _, Some latest =>
      let latest_price := as_double (Close latest) in
      let first_price := as_double (Close first) in
      let momentum :=
        if (1 <? length hist)%nat
        then dmul (ddiv (dsub latest_price first_price) first_price)
                 (of_Z 100)
        else of_Z 0 in
      Some {| symbol := symbol;
              companyName := get (longName info) (Some symbol);
              currentPrice := dround2 latest_price;
              volume := Volume latest;
              marketCap := get (info_marketCap info) (of_Z 0);
              pe_ratio := get (trailingPE info) (of_Z 0);
              pb_ratio := get (priceToBook info) (of_Z 0);
              roe := get (returnOnEquity info) (of_Z 0);
              profit_margin := get (profitMargins info) (of_Z 0);
              momentum_30d := dround2 momentum;
              sector := get (info_sector info) (Some "Unknown");
              industry := get (info_industry info) (Some "Unknown") |}
  | _, _ => None
  end.

Section Provider.

(** The market-data provider is outside the program: a request for a
    ticker, made in some state of the world, either raises (first
    component [None]) or answers with the info dict and the price history,
    and leaves the world in a new state. *)
Variable World : Type.
Variable provider : string → World → option (Info * list Bar) * World.

(** [get_stock_details_yfinance]: the whole body is under a [try] whose
    handler returns [None]. *)
Definition get_stock_details_yfinance (symbol : string) (w : World)
  : option StockRecord * World :=
  let yf_symbol := (symbol ++ ".NS")%string in
  match provider yf_symbol w with
  | (Some (info, hist), w') => (build_record symbol info hist, w')
  | (None, w') => (None, w')
  end.

(** The loop of [get_multiple_stocks_data]; [stock_data] is the list the
    loop appends to. *)
Fixpoint fetch_loop (symbols : list string) (stock_data : list StockRecord)
    (w : World) : list StockRecord * World :=
  match symbols with
  | [] => (stock_data, w)
  | symbol :: rest =>
      match get_stock_details_yfinance symbol w with
      | (Some data, w') => fetch_loop rest (stock_data ++ [data]) w'
      | (None, w') => fetch_loop rest stock_data w'
      end
  end.

Definition default_max_stocks : Z := 20.

Definition get_multiple_stocks_data (symbols : list string) (max_stocks : Z)
    (w : World) : list StockRecord * World :=
  fetch_loop (slice_to max_stocks symbols) [] w.

(** The outcome of each request of a batch, in request order: what the
    per-symbol fetch returned for the first, then for the second in the
    world the first one left, and so on. *)
Fixpoint outcomes (symbols : list string) (w : World)
  : list (option StockRecord) :=
  match symbols with
  | [] => []
  | symbol :: rest =>
      let '(r, w') := get_stock_details_yfinance symbol w in
      r :: outcomes rest w'
  end.

End Provider.

End Fetcher.

(** ** Exceptions *)

Inductive exn : Type :=
  | KeyError (key : string)
  | ValueError (msg : string)
  | TypeError (msg : string).

Inductive result (A : Type) : Type :=
  | Ok (a : A)
  | Raise (e : exn).

Arguments Ok {A} a.
Arguments Raise {A} e.

Definition bind {A B} (r : result A) (k : A → result B) : result B :=
  match r with
  | Ok a => k a
  | Raise e => Raise e
  end.

Notation "x ←? r ; k" := (bind r (λ x, k))
  (at level 100, r at next level, right associativity).

(** ** pandas operations used by the analyzer *)

Module Pandas.

(** [Series.rank(pct=True)] on an integer column, with the default
    [method='average']: the rank of a value is the mean of the positions
    (counted from 1) that its tie group occupies in sorted order, and the
    percentile is that rank divided by the number of rows. *)
Definition rank_average (col : list Z) (x : Z) : Q :=
  let less := length (filter (λ y, (y < x)%Z) col) in
  let equal := length (filter (λ y, y = x) col) in
  (inject_Z (Z.of_nat less) + (inject_Z (Z.of_nat equal) + 1) / 2)%Q.

Definition rank_pct (col : list Z) : list Q :=
  (λ x, (rank_average col x / inject_Z (Z.of_nat (length col)))%Q) <$> col.

(** An [int64] and the wrap-around of its arithmetic. *)
Definition int64 (z : Z) : Prop := (- 2 ^ 63 <= z < 2 ^ 63)%Z.

Definition wrap64 (z : Z) : Z := ((z + 2 ^ 63) mod 2 ^ 64 - 2 ^ 63)%Z.

(** [Series.sum()] on an [int64] column: the sum modulo 2^64. *)
Definition sum_int64 (col : list Z) : Z := wrap64 (foldr Z.add 0%Z col).

(** Order of a descending sort on a float column: [precedes a b] when [a]
    has to come before [b] whatever their positions, NaN being last. *)
Definition precedes (a b : float64) : bool :=
  if isna a then false else if isna b then true else fgt a b.

(** Two values that a descending sort does not separate. *)
Definition tied (a b : float64) : bool :=
  negb (precedes a b) && negb (precedes b a).

Section Sort.

Context {A : Type} (key : A → float64).

(** [place x l]: [x], which stood before every row of the sorted [l] in
    the frame, goes in front of the first row that does not precede it. *)
Fixpoint place (x : A) (l : list A) : list A :=
  match l with
  | [] => [x]
  | y :: l' =>
      if precedes (key y) (key x) then y :: place x l' else x :: y :: l'
  end.

(** Descending stable sort, NaN last: [sort_values(ascending=False)] with
    ties left in frame order. *)
Definition sort_desc (l : list A) : list A := foldr place [] l.

(** [b] may stand after [a] in a descending order. *)
Definition desc (a b : A) : Prop := precedes (key b) (key a) = false.

(** [nlargest(n, column)] with the default [keep='first']. *)
Definition nlargest (n : Z) (l : list A) : list A :=
  take (Z.to_nat n) (sort_desc l).

End Sort.

(** The keys of [groupby(column)] on a text column: each value once, in
    sorted order; the missing cells form no group (the default
    [dropna=True]). *)
Definition group_keys (col : list (option string)) : list string :=
  merge_sort (λ a b : string, String.leb a b) (remove_dups (omap id col)).

End Pandas.

(** ** The scoring engine ([stock_analyzer.py]) *)

Module Analyzer.

Import Pandas.

Record StockAnalyzer : Type := { scoring_weights : gmap string Q }.

(** [StockAnalyzer.__init__] *)
Definition init : StockAnalyzer :=
  {| scoring_weights :=
       {[ "pe_score" := 0.25%Q; "volume_score" := 0.20%Q;
          "momentum_score" := 0.25%Q; "profit_score" := 0.30%Q ]} |}.

(** [self.scoring_weights[key]] *)
Definition weight (self : StockAnalyzer) (key : string) : result Q :=
  match scoring_weights self !! key with
  | Some w => Ok w
  | None => Raise (KeyError key)
  end.

(** Body of the loop of [calculate_pe_score]. *)
Definition pe_bucket (pe : float64) : Z :=
  if fle pe (of_Z 0) || isna pe then 1
  else if flt pe (of_Z 15) then 10
  else if flt pe (of_Z 25) then 8
  else if flt pe (of_Z 35) then 5
  else 2.

Definition calculate_pe_score (df : list StockRecord) : list Z :=
  pe_bucket <$> (pe_ratio <$> df).

(** Body of the loop of [calculate_volume_score]. *)
Definition volume_bucket (percentile : Q) : Z :=
  if Qle_bool 0.8 percentile then 10
  else if Qle_bool 0.6 percentile then 8
  else if Qle_bool 0.4 percentile then 6
  else if Qle_bool 0.2 percentile then 4
  else 2.

Definition calculate_volume_score (df : list StockRecord) : list Z :=
  let col := volume <$> df in
  if (sum_int64 col =? 0)%Z then replicate (length df) 5%Z
  else volume_bucket <$> rank_pct col.

(** Body of the loop of [calculate_momentum_score]. *)
Definition momentum_bucket (momentum : float64) : Z :=
  if isna momentum then 5
  else if fgt momentum (of_Z 20) then 10
  else if fgt momentum (of_Z 10) then 8
  else if fgt momentum (of_Z 0) then 6
  else if fgt momentum (of_Z (-10)) then 4
  else 2.

Definition calculate_momentum_score (df : list StockRecord) : list Z :=
  momentum_bucket <$> (momentum_30d <$> df).

(** Body of the loop of [calculate_profit_score]. *)
Definition profit_bucket (row : StockRecord) : Z :=
  let profit_margin := profit_margin row in
  let roe := roe row in
  let profit_margin := if isna profit_margin then of_Z 0 else profit_margin in
  let roe := if isna roe then of_Z 0 else roe in
  let profit_margin :=
    if flt profit_margin (of_Z 1) then fmul profit_margin (of_Z 100)
    else profit_margin in
  let roe := if flt roe (of_Z 1) then fmul roe (of_Z 100) else roe in
  let score := 0%Z in
  let score :=
    if fgt profit_margin (of_Z 20) then (score + 5)%Z
    else if fgt profit_margin (of_Z 10) then (score + 4)%Z
    else if fgt profit_margin (of_Z 5) then (score + 3)%Z
    else if fgt profit_margin (of_Z 0) then (score + 2)%Z
    else (score + 1)%Z in
  let score :=
    if fgt roe (of_Z 20) then (score + 5)%Z
    else if fgt roe (of_Z 15) then (score + 4)%Z
    else if fgt roe (of_Z 10) then (score + 3)%Z
    else if fgt roe (of_Z 5) then (score + 2)%Z
    else (score + 1)%Z in
  score.

Definition calculate_profit_score (df : list StockRecord) : list Z :=
  profit_bucket <$> df.

(** An integer column times a float. *)
Definition scale (col : list Z) (w : Q) : list Q :=
  (λ s, (inject_Z s * w)%Q) <$> col.

(** The frame with the five score columns set. *)
Fixpoint with_scores (df : list StockRecord) (pe vol mom prof : list Z)
    (overall : list Q) : list ScoredRecord :=
  match df, pe, vol, mom, prof, overall with
  | r :: df, a :: pe, b :: vol, c :: mom, d :: prof, o :: overall =>
      {| base := r; pe_score := a; volume_score := b; momentum_score := c;
         profit_score := d; overall_score := o |}
      :: with_scores df pe vol mom prof overall
  | _, _, _, _, _, _ => []
  end.

Definition calculate_overall_score (self : StockAnalyzer)
    (df : list StockRecord) : result (list ScoredRecord) :=
  let pe := calculate_pe_score df in
  let vol := calculate_volume_score df in
  let mom := calculate_momentum_score df in
  let prof := calculate_profit_score df in
  w_pe ←? weight self "pe_score";
  w_vol ←? weight self "volume_score";
  w_mom ←? weight self "momentum_score";
  w_prof ←? weight self "profit_score";
  let sum :=
    zip_with Qplus
      (zip_with Qplus (zip_with Qplus (scale pe w_pe) (scale vol w_vol))
         (scale mom w_mom))
      (scale prof w_prof) in
  Ok (with_scores df pe vol mom prof (Qround2 <$> sum)).

(** Scoring a frame that already has its score columns: the assignments
    replace the five columns, and the score functions read the other
    columns only. *)
Definition rescore (self : StockAnalyzer) (df : list ScoredRecord)
  : result (list ScoredRecord) :=
  calculate_overall_score self (base <$> df).

(** *** Views over a scored frame *)

(** A column of a scored frame: numeric (integer or float dtype, read as a
    float) or text (dtype [object]). *)
Inductive column : Type :=
  | NumCol (f : ScoredRecord → float64)
  | TextCol (f : ScoredRecord → option string).

Definition schema : list (string * column) :=
  [ ("symbol", TextCol (λ r, Some (symbol (base r))));
    ("companyName", TextCol (λ r, companyName (base r)));
    ("currentPrice", NumCol (λ r, currentPrice (base r)));
    ("volume", NumCol (λ r, of_Z (volume (base r))));
    ("marketCap", NumCol (λ r, marketCap (base r)));
    ("pe_ratio", NumCol (λ r, pe_ratio (base r)));
    ("pb_ratio", NumCol (λ r, pb_ratio (base r)));
    ("roe", NumCol (λ r, roe (base r)));
    ("profit_margin", NumCol (λ r, profit_margin (base r)));
    ("momentum_30d", NumCol (λ r, momentum_30d (base r)));
    ("sector", TextCol (λ r, sector (base r)));
    ("industry", TextCol (λ r, industry (base r)));
    ("pe_score", NumCol (λ r, of_Z (pe_score r)));
    ("volume_score", NumCol (λ r, of_Z (volume_score r)));
    ("momentum_score", NumCol (λ r, of_Z (momentum_score r)));
    ("profit_score", NumCol (λ r, of_Z (profit_score r)));
    ("overall_score", NumCol (λ r, Finite (overall_score r))) ].

(** [df.columns] *)
Definition columns : list string := schema.*1.

Fixpoint assoc {V} (name : string) (l : list (string * V)) : option V :=
  match l with
  | [] => None
  | (k, v) :: l' => if String.eqb k name then Some v else assoc name l'
  end.

(** [get_top_stocks]; [df.nlargest] refuses a column of dtype [object]. *)
Definition get_top_stocks (df : list ScoredRecord) (metric : string)
    (top_n : Z) : result (list ScoredRecord) :=
  match assoc metric schema with
  | None =>
      Raise (ValueError ("Metric '" ++ metric ++ "' not found in dataframe"))
  | Some (TextCol _) =>
      Raise (TypeError ("Column '" ++ metric ++ "' has dtype object, " ++
                        "cannot use method 'nlargest' with this dtype"))
  | Some (NumCol key) => Ok (nlargest key top_n df)
  end.

Definition default_metric : string := "overall_score".
Definition default_top_n : Z := 10.

(** One [if key in criteria: filtered_df = filtered_df[mask]] step. *)
Definition apply_criterion (criteria : gmap string Q) (key : string)
    (keep : Q → ScoredRecord → bool) (filtered_df : list ScoredRecord)
  : list ScoredRecord :=
  match criteria !! key with
  | Some c => filter (λ r, keep c r) filtered_df
  | None => filtered_df
  end.

Definition get_stocks_by_criteria (df : list ScoredRecord)
    (criteria : gmap string Q) : list ScoredRecord :=
  let filtered_df := df in
  let filtered_df :=
    apply_criterion criteria "min_pe"
      (λ c r, fge (pe_ratio (base r)) (Finite c)) filtered_df in
  let filtered_df :=
    apply_criterion criteria "max_pe"
      (λ c r, fle (pe_ratio (base r)) (Finite c)) filtered_df in
  let filtered_df :=
    apply_criterion criteria "min_momentum"
      (λ c r, fge (momentum_30d (base r)) (Finite c)) filtered_df in
  let filtered_df :=
    apply_criterion criteria "min_profit_margin"
      (λ c r, fge (dmul (as_double (profit_margin (base r))) (of_Z 100))
                  (Finite c))
      filtered_df in
  let filtered_df :=
    apply_criterion criteria "min_volume"
      (λ c r, fge (of_Z (volume (base r))) (Finite c)) filtered_df in
  filtered_df.

(** A row of the frame returned by [get_sector_analysis]; [group] is its
    index label. *)
Record SectorRow : Type := {
  group : string;
  avg_score : float64;
  stock_count : nat;
  avg_pe : float64;
  avg_momentum : float64;
  avg_profit_margin : float64
}.

(** The rows of one group of [df.groupby('sector')]. *)
Definition rows_of (df : list ScoredRecord) (key : string)
  : list ScoredRecord :=
  filter (λ r, sector (base r) = Some key) df.

Section Aggregation.

(** ['mean'] of a float column over one group, followed by [round(2)]:
    pandas computes both in doubles, with a summation of its own.  The
    grouping, the counts and the sort are the same whatever this
    operation gives; [double_mean_round2] below is the operation in
    doubles, [exact_mean_round2] the one on exact rationals. *)
Variable mean_round2 : list float64 → float64.

(** [agg] of one group, then [round(2)]. *)
Definition aggregate (df : list ScoredRecord) (key : string) : SectorRow :=
  let g := rows_of df key in
  let scores := (λ r, Finite (overall_score r)) <$> g in
  {| group := key;
     avg_score := mean_round2 scores;
     stock_count := count_notna scores;
     avg_pe := mean_round2 ((λ r, pe_ratio (base r)) <$> g);
     avg_momentum := mean_round2 ((λ r, momentum_30d (base r)) <$> g);
     avg_profit_margin :=
       mean_round2 ((λ r, profit_margin (base r)) <$> g) |}.

Definition get_sector_analysis (df : list ScoredRecord) : list SectorRow :=
  let sector_analysis :=
    aggregate df <$> group_keys ((λ r, sector (base r)) <$> df) in
  sort_desc avg_score sector_analysis.

End Aggregation.


(** The mean and the rounding in doubles, as pandas' grouped mean and
    numpy's [round] compute them. *)
Definition double_mean_round2 (col : list float64) : float64 :=
  dround2 (dmean col).

End Analyzer.

(** ** Row-wise reading of the scoring step *)

Module Rows.

Import Pandas Analyzer.

(** The volume score of a row of [df]. *)
Definition volume_score_of (df : list StockRecord) (r : StockRecord) : Z :=
  let col := volume <$> df in
  if (sum_int64 col =? 0)%Z then 5%Z
  else volume_bucket
         (rank_average col (volume r) / inject_Z (Z.of_nat (length col)))%Q.

Definition weighted_sum (pe vol mom prof : Z) : Q :=
  (inject_Z pe * 0.25 + inject_Z vol * 0.20 + inject_Z mom * 0.25
   + inject_Z prof * 0.30)%Q.

(** The scored row of a row of [df]. *)
Definition score_row (df : list StockRecord) (r : StockRecord)
  : ScoredRecord :=
  let pe := pe_bucket (pe_ratio r) in
  let vol := volume_score_of df r in
  let mom := momentum_bucket (momentum_30d r) in
  let prof := profit_bucket r in
  {| base := r; pe_score := pe; volume_score := vol; momentum_score := mom;
     profit_score := prof;
     overall_score := Qround2 (weighted_sum pe vol mom prof) |}.

(** The fields the score functions read. *)
Definition scoring_inputs (r : StockRecord)
  : float64 * Z * float64 * float64 * float64 :=
  (pe_ratio r, volume r, momentum_30d r, profit_margin r, roe r).

(** The fields the scoring step writes. *)
Definition score_fields (r : ScoredRecord) : Z * Z * Z * Z * Q :=
  (pe_score r, volume_score r, momentum_score r, profit_score r,
   overall_score r).

(** A float is at least, or at most, a threshold; NaN is neither. *)
Definition at_least (a : float64) (c : Q) : Prop :=
  match a with
  | Finite x => (c <= x)%Q
  | PosInf => True
  | _ => False
  end.

Definition at_most (a : float64) (c : Q) : Prop :=
  match a with
  | Finite x => (x <= c)%Q
  | NegInf => True
  | _ => False
  end.

(** A row passes the criteria: each recognised key constrains the row
    when it is present, and only then. *)
Definition meets (criteria : gmap string Q) (r : ScoredRecord) : Prop :=
  (∀ c, criteria !! "min_pe" = Some c → at_least (pe_ratio (base r)) c) ∧
  (∀ c, criteria !! "max_pe" = Some c → at_most (pe_ratio (base r)) c) ∧
  (∀ c, criteria !! "min_momentum" = Some c →
        at_least (momentum_30d (base r)) c) ∧
  (∀ c, criteria !! "min_profit_margin" = Some c →
        at_least (dmul (as_double (profit_margin (base r))) (of_Z 100)) c) ∧
  (∀ c, criteria !! "min_volume" = Some c →
        (c <= inject_Z (volume (base r)))%Q).

Definition recognised_keys : list string :=
  [ "min_pe"; "max_pe"; "min_momentum"; "min_profit_margin"; "min_volume" ].

(** One criterion passes on a row: its key is absent, or its test holds. *)
Definition passes (criteria : gmap string Q) (key : string)
    (keep : Q → ScoredRecord → bool) (r : ScoredRecord) : bool :=
  match criteria !! key with
  | Some c => keep c r
  | None => true
  end.

(** Every criterion passes on a row. *)
Definition passes_all (criteria : gmap string Q) (r : ScoredRecord) : bool :=
  passes criteria "min_pe" (λ c r, fge (pe_ratio (base r)) (Finite c)) r
  && passes criteria "max_pe" (λ c r, fle (pe_ratio (base r)) (Finite c)) r
  && passes criteria "min_momentum"
       (λ c r, fge (momentum_30d (base r)) (Finite c)) r
  && passes criteria "min_profit_margin"
       (λ c r, fge (dmul (as_double (profit_margin (base r))) (of_Z 100))
                   (Finite c)) r
  && passes criteria "min_volume"
       (λ c r, fge (of_Z (volume (base r))) (Finite c)) r.

(** The values the four sub-scores take. *)
Definition pe_values : list Z := [1; 2; 5; 8; 10]%Z.
Definition volume_values : list Z := [2; 4; 5; 6; 8; 10]%Z.
Definition momentum_values : list Z := [2; 4; 5; 6; 8; 10]%Z.
Definition profit_values : list Z := [2; 3; 4; 5; 6; 7; 8; 9; 10]%Z.

(** On four sub-scores, the overall score computed in doubles is the
    double nearest to the one computed in rationals. *)
Definition binary64_agrees (pe vol mom prof : Z) : bool :=
  PrimFloat.eqb
    (binary64_round2 (binary64_weighted pe vol mom prof 0.25 0.20 0.25 0.30))
    (binary64 (Qround2 (weighted_sum pe vol mom prof))).


(** The names of the columns of a scored frame, by dtype. *)
Definition numeric_columns : list string :=
  [ "currentPrice"; "volume"; "marketCap"; "pe_ratio"; "pb_ratio"; "roe";
    "profit_margin"; "momentum_30d"; "pe_score"; "volume_score";
    "momentum_score"; "profit_score"; "overall_score" ].

Definition text_columns : list string :=
  [ "symbol"; "companyName"; "sector"; "industry" ].




End Rows.

(** ** Sample data *)

Module Examples.

Import Fetcher Analyzer.

Definition stock (name : string) (vol : Z) (pe : float64) (sec : string)
  : StockRecord :=
  {| symbol := name; companyName := Some name; currentPrice := Finite 100;
     volume := vol; marketCap := of_Z 0; pe_ratio := pe;
     pb_ratio := of_Z 0; roe := Finite 0.2; profit_margin := Finite 0.1;
     momentum_30d := Finite 5; sector := Some sec;
     industry := Some "Unknown" |}.

(** A scored row with a given overall score. *)
Definition scored (name : string) (pe : float64) (overall : Q)
  : ScoredRecord :=
  {| base := stock name 1000 pe "Energy"; pe_score := 8; volume_score := 8;
     momentum_score := 6; profit_score := 7; overall_score := overall |}.

(** Two and three rows with the same nonzero volume. *)
Definition same_volume_2 : list StockRecord :=
  [ stock "TCS" 100 (Finite 30) "Technology";
    stock "INFY" 100 (Finite 12) "Technology" ].

Definition same_volume_3 : list StockRecord :=
  same_volume_2 ++ [ stock "ITC" 100 (Finite 20) "Consumer" ].

(** The rows of [same_volume_2] under other names and sectors. *)
Definition same_volume_2_renamed : list StockRecord :=
  [ stock "WIPRO" 100 (Finite 30) "Services";
    stock "LT" 100 (Finite 12) "Industrials" ].

(** A frame of one row that is best on every count. *)
Definition star : StockRecord :=
  {| symbol := "TITAN"; companyName := Some "Titan";
     currentPrice := Finite 3000;
     volume := 5000; marketCap := of_Z 0; pe_ratio := Finite 10;
     pb_ratio := of_Z 0; roe := Finite 0.3; profit_margin := Finite 0.3;
     momentum_30d := Finite 25; sector := Some "Consumer";
     industry := Some "Unknown" |}.

(** A scored row with the profit margin 0.29. *)
Definition margin_29 : ScoredRecord :=
  {| base :=
       {| symbol := "ITC"; companyName := Some "ITC";
          currentPrice := Finite 100; volume := 1000; marketCap := of_Z 0;
          pe_ratio := Finite 12; pb_ratio := of_Z 0; roe := Finite 0.2;
          profit_margin := Finite 0.29; momentum_30d := Finite 5;
          sector := Some "Consumer"; industry := Some "Unknown" |};
     pe_score := 10; volume_score := 10; momentum_score := 6;
     profit_score := 9; overall_score := 8.7 |}.

(** Five scored rows with overall scores 9.1, 4.0, 7.5, 9.1, 2.0. *)
Definition five_rows : list ScoredRecord :=
  [ scored "A" (Finite 10) 9.1; scored "B" (Finite 11) 4.0;
    scored "C" (Finite 12) 7.5; scored "D" (Finite 13) 9.1;
    scored "E" (Finite 14) 2.0 ].

(** Three scored rows with PE ratios 5, 15, 25. *)
Definition three_pe : list ScoredRecord :=
  [ scored "A" (Finite 5) 7.2; scored "B" (Finite 15) 7.2;
    scored "C" (Finite 25) 7.2 ].

Definition pe_10_20 : gmap string Q :=
  {[ "min_pe" := 10%Q; "max_pe" := 20%Q ]}.

(** A provider that knows one ticker, and whose answers do not depend on
    the state of the world, a request counter. *)
Definition one_bar : list Bar := [ {| Close := Finite 250; Volume := 4000 |} ].

Definition two_bars : list Bar :=
  [ {| Close := Finite 250; Volume := 4000 |};
    {| Close := Finite 251; Volume := 5000 |} ].

Definition no_info : Info :=
  {| longName := None; info_marketCap := None; trailingPE := None;
     priceToBook := None; returnOnEquity := None; profitMargins := None;
     info_sector := None; info_industry := None |}.

(** The record the fetcher builds from [no_info] and [one_bar]. *)
Definition unknown_tcs : StockRecord :=
  {| symbol := "TCS"; companyName := Some "TCS";
     currentPrice := Finite 250; volume := 4000;
     marketCap := of_Z 0; pe_ratio := of_Z 0; pb_ratio := of_Z 0;
     roe := of_Z 0; profit_margin := of_Z 0;
     momentum_30d := Finite 0; sector := Some "Unknown";
     industry := Some "Unknown" |}.

(** An answer in which the provider sends ['sector'] with the value
    [None], and the record the fetcher builds from it. *)
Definition null_sector : Info :=
  {| longName := None; info_marketCap := None; trailingPE := None;
     priceToBook := None; returnOnEquity := None; profitMargins := None;
     info_sector := Some None; info_industry := None |}.

Definition no_sector_tcs : StockRecord :=
  {| symbol := "TCS"; companyName := Some "TCS";
     currentPrice := Finite 250; volume := 4000;
     marketCap := of_Z 0; pe_ratio := of_Z 0; pb_ratio := of_Z 0;
     roe := of_Z 0; profit_margin := of_Z 0;
     momentum_30d := Finite 0; sector := None;
     industry := Some "Unknown" |}.

(** A scored frame of two rows, the first without a sector. *)
Definition missing_sector : list ScoredRecord :=
  let df := [ no_sector_tcs; stock "INFY" 100 (Finite 12) "Technology" ] in
  Rows.score_row df <$> df.

(** A scored frame of three rows, two of them as the fetcher builds them
    from an answer without ['sector']. *)
Definition fetched_scored : list ScoredRecord :=
  let df :=
    [ unknown_tcs; stock "INFY" 100 (Finite 12) "Technology"; unknown_tcs ] in
  Rows.score_row df <$> df.

Definition only_tcs (ticker : string) (w : nat)
  : option (Info * list Bar) * nat :=
  if String.eqb ticker "TCS.NS" then (Some (no_info, one_bar), S w)
  else (None, S w).

(** Four rows of volume 2^62. *)
Definition wrapping_4 : list StockRecord :=
  [ stock "A" (2 ^ 62) (Finite 10) "Energy";
    stock "B" (2 ^ 62) (Finite 10) "Energy";
    stock "C" (2 ^ 62) (Finite 10) "Energy";
    stock "D" (2 ^ 62) (Finite 10) "Energy" ].

(** Three rows with the volumes 300, 100 and 500. *)
Definition three_volumes : list StockRecord :=
  [ stock "A" 300 (Finite 10) "Energy"; stock "B" 100 (Finite 10) "Energy";
    stock "C" 500 (Finite 10) "Energy" ].

End Examples.

(** ** The index list ([get_nse_stocks]) *)

Module Nse.

Import Fetcher.

(** One dict of the list that [get_nse_stocks] returns; ['symbol'] is the
    only key the program reads, [None] when the dict does not have it. *)
Record StockEntry : Type := { entry_symbol : option string }.

(** What [response.json()] gives: it raises, or the payload is not a dict
    ([Malformed]); a dict without the key ['data'] ([NoData]); a dict with
    a list of dicts under ['data'] ([Data]).  A dict that holds anything
    else under ['data'] is not one of these cases. *)
Inductive Body : Type :=
  | Malformed
  | NoData
  | Data (stocks : list StockEntry).

(** What [requests.get] gives: it raises, or a response. *)
Inductive HttpOutcome : Type :=
  | RequestRaises
  | Response (status_code : Z) (json : Body).

(** [get_fallback_nifty50_stocks] *)
Definition get_fallback_nifty50_stocks : list StockEntry :=
  (λ symbol, {| entry_symbol := Some symbol |}) <$> nifty50_symbols.

(** The body of [get_nse_stocks], given what the request came back with. *)
Definition nse_stocks_of (outcome : HttpOutcome) : list StockEntry :=
  match outcome with
  | RequestRaises => get_fallback_nifty50_stocks
  | Response status_code json =>
      if (status_code =? 200)%Z then
        match json with
        | Malformed => get_fallback_nifty50_stocks
        | NoData => []
        | Data stocks => stocks
        end
      else get_fallback_nifty50_stocks
  end.

Section Http.

Variable World : Type.
Variable http : World → HttpOutcome * World.

(** [get_nse_stocks] *)
Definition get_nse_stocks (w : World) : list StockEntry * World :=
  let '(outcome, w') := http w in (nse_stocks_of outcome, w').

End Http.

End Nse.

(** ** The dashboard ([app.py]) *)

Module App.

Import Fetcher Nse Pandas Analyzer.

(** [[stock['symbol'] for stock in stock_list]] *)
Fixpoint symbols_of (stock_list : list StockEntry) : result (list string) :=
  match stock_list with
  | [] => Ok []
  | stock :: rest =>
      match entry_symbol stock with
      | None => Raise (KeyError "symbol")
      | Some symbol => symbols ←? symbols_of rest; Ok (symbol :: symbols)
      end
  end.

(** The sidebar filter of [main]: the mask
    [(pe >= lo) & (pe <= hi) & (momentum >= m) & (volume >= v)]. *)
Definition sidebar_filter (df : list ScoredRecord) (pe_range : Q * Q)
    (momentum_min : Q) (volume_min : Z) : list ScoredRecord :=
  filter (λ r,
    fge (pe_ratio (base r)) (Finite pe_range.1)
    && fle (pe_ratio (base r)) (Finite pe_range.2)
    && fge (momentum_30d (base r)) (Finite momentum_min)
    && fge (of_Z (volume (base r))) (of_Z volume_min)) df.

(** [filtered_df.nlargest(10, 'overall_score')] of the first tab. *)
Definition top_recommendations (filtered_df : list ScoredRecord)
  : list ScoredRecord :=
  nlargest (λ r, Finite (overall_score r)) 10 filtered_df.

End App.

(** ** Recording the requests made to the provider *)

Module Trace.

Import Fetcher Nse.

(** A provider that answers as [provider] does and keeps, beside the
    state of the world, the list of the tickers it was asked for. *)
Definition logged {World : Type}
    (provider : string → World → option (Info * list Bar) * World)
    (ticker : string) (wl : World * list string)
  : option (Info * list Bar) * (World * list string) :=
  let '(answer, w') := provider ticker wl.1 in
  (answer, (w', wl.2 ++ [ticker])).

End Trace.

(** * Properties *)

(** ** Order of floats *)

Section FloatOrder.

Local Open Scope Q_scope.

Lemma Qlt_bool_iff (x y : Q) : Qlt_bool x y = true ↔ x < y.
Proof.
  unfold Qlt_bool. rewrite negb_true_iff, <- not_true_iff_false, Qle_bool_iff.
  split; [apply Qnot_le_lt | apply Qlt_not_le].
Qed.

Lemma Qlt_bool_false (x y : Q) : Qlt_bool x y = false ↔ y <= x.
Proof.
  unfold Qlt_bool. rewrite negb_false_iff. apply Qle_bool_iff.
Qed.

Lemma Qle_bool_false (x y : Q) : Qle_bool x y = false ↔ y < x.
Proof.
  rewrite <- not_true_iff_false, Qle_bool_iff.
  split; [apply Qnot_le_lt | apply Qlt_not_le].
Qed.

(** [precedes] is asymmetric. *)
Lemma precedes_asym (a b : float64) :
  Pandas.precedes a b = true → Pandas.precedes b a = false.
Proof.
  destruct a as [x| | |], b as [y| | |]; cbn; try done.
  rewrite Qlt_bool_iff, Qlt_bool_false. apply Qlt_le_weak.
Qed.

(** [precedes] is negatively transitive: when [a] need not come before
    [b], nor [b] before [c], then [a] need not come before [c]. *)
Lemma precedes_cotrans (a b c : float64) :
  Pandas.precedes a b = false → Pandas.precedes b c = false →
  Pandas.precedes a c = false.
Proof.
  destruct a as [x| | |], b as [y| | |], c as [z| | |]; cbn; try done.
  rewrite !Qlt_bool_false. intros H1 H2. by apply Qle_trans with y.
Qed.

Lemma tied_refl (a : float64) : Pandas.tied a a = true.
Proof.
  unfold Pandas.tied. destruct a as [x| | |]; cbn; try done.
  assert (Qlt_bool x x = false) as ->; [|done].
  apply Qlt_bool_false, Qle_refl.
Qed.

Lemma tied_precedes (a b k : float64) :
  Pandas.tied a k = true → Pandas.tied b k = true →
  Pandas.precedes a b = false.
Proof.
  unfold Pandas.tied. rewrite !andb_true_iff, !negb_true_iff.
  intros [H1 H2] [H3 H4]. by apply precedes_cotrans with k.
Qed.

(** On finite values, [b] does not precede [a] exactly when [b <= a]. *)
Lemma precedes_finite (x y : Q) :
  Pandas.precedes (Finite y) (Finite x) = false ↔ y <= x.
Proof. cbn. apply Qlt_bool_false. Qed.

End FloatOrder.

(** Case analysis on every rational comparison of the goal. *)
Ltac compare_cases :=
  repeat match goal with
  | |- context [Qle_bool ?a ?b] =>
      let E := fresh "E" in
      destruct (Qle_bool a b) eqn:E;
      [apply Qle_bool_iff in E | apply Qle_bool_false in E]
  | |- context [Qlt_bool ?a ?b] =>
      let E := fresh "E" in
      destruct (Qlt_bool a b) eqn:E;
      [apply Qlt_bool_iff in E | apply Qlt_bool_false in E]
  end.

(** Membership in a list given by its elements. *)
Ltac in_list :=
  repeat first [apply list_elem_of_here | apply list_elem_of_further].

(** ** Doubles *)

(** On the samples, rounding a decimal to a double and the four operations
    on doubles give what the machine gives. *)
Lemma double_binary64 :
  forallb double_agrees decimal_samples = true ∧
  forallb (operation_agrees dadd PrimFloat.add) decimal_pairs = true ∧
  forallb (operation_agrees dsub PrimFloat.sub) decimal_pairs = true ∧
  forallb (operation_agrees dmul PrimFloat.mul) decimal_pairs = true ∧
  forallb (operation_agrees ddiv PrimFloat.div) decimal_pairs = true ∧
  forallb dround2_agrees decimal_samples = true.
Proof. repeat split; by vm_compute. Qed.

(** ** The descending stable sort *)

Section SortFacts.

Import Pandas.

Context {A : Type} (key : A → float64).

Lemma place_Permutation (x : A) (l : list A) : place key x l ≡ₚ x :: l.
Proof.
  induction l as [|y l IH]; cbn; [done|].
  destruct (precedes (key y) (key x)); [|done].
  rewrite IH. apply Permutation_swap.
Qed.

Lemma sort_desc_Permutation (l : list A) : sort_desc key l ≡ₚ l.
Proof.
  induction l as [|x l IH]; cbn; [done|].
  rewrite place_Permutation. by f_equiv.
Qed.

Lemma sort_desc_length (l : list A) : length (sort_desc key l) = length l.
Proof. by rewrite sort_desc_Permutation. Qed.

Lemma place_sorted (x : A) (l : list A) :
  StronglySorted (desc key) l → StronglySorted (desc key) (place key x l).
Proof.
  induction 1 as [|y l Hl IH Hy]; cbn.
  - repeat constructor.
  - destruct (precedes (key y) (key x)) eqn:E.
    + constructor; [done|].
      rewrite place_Permutation. constructor; [|done].
      by apply precedes_asym.
    + constructor; [by constructor|].
      constructor; [done|].
      eapply Forall_impl; [exact Hy|].
      intros z Hz. unfold desc in *. by eapply precedes_cotrans.
Qed.

Lemma sort_desc_sorted (l : list A) : StronglySorted (desc key) (sort_desc key l).
Proof.
  induction l as [|x l IH]; cbn; [constructor|]. by apply place_sorted.
Qed.

(** Stability: the rows tied at a value keep their frame order. *)
Lemma place_filter_tied (k : float64) (x : A) (l : list A) :
  filter (λ r, tied (key r) k = true) (place key x l) =
  filter (λ r, tied (key r) k = true) (x :: l).
Proof.
  induction l as [|y l IH]; cbn; [done|].
  destruct (precedes (key y) (key x)) eqn:E; [|done].
  rewrite (filter_cons _ y (place key x l)), IH, !filter_cons.
  destruct (decide (tied (key y) k = true)) as [Hy|Hy],
           (decide (tied (key x) k = true)) as [Hx|Hx]; try done.
  by rewrite (tied_precedes _ _ _ Hy Hx) in E.
Qed.

Lemma sort_desc_stable (k : float64) (l : list A) :
  filter (λ r, tied (key r) k = true) (sort_desc key l) =
  filter (λ r, tied (key r) k = true) l.
Proof.
  induction l as [|x l IH]; [done|].
  change (sort_desc key (x :: l)) with (place key x (sort_desc key l)).
  by rewrite place_filter_tied, !filter_cons, IH.
Qed.

Lemma nlargest_length (n : Z) (l : list A) :
  length (nlargest key n l) = Nat.min (Z.to_nat n) (length l).
Proof. unfold nlargest. by rewrite length_take, sort_desc_length. Qed.

Lemma nlargest_sorted (n : Z) (l : list A) :
  StronglySorted (desc key) (nlargest key n l).
Proof.
  unfold nlargest. eapply StronglySorted_app_1_l.
  rewrite take_drop. apply sort_desc_sorted.
Qed.

(** The rows left out, with the rows selected, make up the frame, and none
    of them has to come before a selected one. *)
Lemma nlargest_largest (n : Z) (l : list A) :
  ∃ rest, nlargest key n l ++ rest ≡ₚ l ∧
          ∀ x y, x ∈ nlargest key n l → y ∈ rest → desc key x y.
Proof.
  exists (drop (Z.to_nat n) (sort_desc key l)). unfold nlargest. split.
  - rewrite take_drop. apply sort_desc_Permutation.
  - intros x y Hx Hy. eapply StronglySorted_app_1_elem_of; [|done..].
    rewrite take_drop. apply sort_desc_sorted.
Qed.

(** Among the rows tied at a value, the selected ones are the first of the
    frame, in frame order. *)
Lemma nlargest_stable (k : float64) (n : Z) (l : list A) :
  filter (λ r, tied (key r) k = true) (nlargest key n l)
    `prefix_of` filter (λ r, tied (key r) k = true) l.
Proof.
  rewrite <- (sort_desc_stable k l). unfold nlargest.
  rewrite <- (take_drop (Z.to_nat n) (sort_desc key l)) at 2.
  rewrite filter_app. by eexists.
Qed.

End SortFacts.

(** ** The scoring step, row by row *)

Section Scoring.

Import Pandas Analyzer Rows.

Lemma replicate_fmap {A B} (b : B) (l : list A) :
  replicate (length l) b = (λ _, b) <$> l.
Proof. induction l as [|x l IH]; cbn; by f_equal. Qed.

Lemma zip_with_fmap_same {A B C D} (f : B → C → D) (g : A → B) (h : A → C)
    (l : list A) :
  zip_with f (g <$> l) (h <$> l) = (λ x, f (g x) (h x)) <$> l.
Proof. induction l as [|x l IH]; cbn; by f_equal. Qed.

Lemma with_scores_fmap (a b c d : StockRecord → Z) (o : StockRecord → Q)
    (df : list StockRecord) :
  with_scores df (a <$> df) (b <$> df) (c <$> df) (d <$> df) (o <$> df) =
  (λ r, {| base := r; pe_score := a r; volume_score := b r;
           momentum_score := c r; profit_score := d r;
           overall_score := o r |}) <$> df.
Proof. induction df as [|r df IH]; cbn; by f_equal. Qed.

Lemma calculate_volume_score_rows (df : list StockRecord) :
  calculate_volume_score df = volume_score_of df <$> df.
Proof.
  unfold calculate_volume_score, volume_score_of, rank_pct.
  destruct (sum_int64 (volume <$> df) =? 0)%Z.
  - apply replicate_fmap.
  - by rewrite <- !list_fmap_compose.
Qed.

Lemma weight_init :
  weight init "pe_score" = Ok 0.25%Q ∧
  weight init "volume_score" = Ok 0.20%Q ∧
  weight init "momentum_score" = Ok 0.25%Q ∧
  weight init "profit_score" = Ok 0.30%Q.
Proof. by vm_compute. Qed.

(** With the weights of [__init__] the scoring step raises nothing, and
    its result is the frame of the scored rows. *)
Lemma calculate_overall_score_rows (df : list StockRecord) :
  calculate_overall_score init df = Ok (score_row df <$> df).
Proof.
  unfold calculate_overall_score.
  destruct weight_init as (-> & -> & -> & ->). cbn [bind]. f_equal.
  rewrite calculate_volume_score_rows.
  unfold calculate_pe_score, calculate_momentum_score, calculate_profit_score,
    scale.
  rewrite <- !list_fmap_compose, !zip_with_fmap_same.
  rewrite <- list_fmap_compose.
  apply (with_scores_fmap (pe_bucket ∘ pe_ratio) (volume_score_of df)
           (momentum_bucket ∘ momentum_30d) profit_bucket).
Qed.

Lemma base_score_row (df0 df : list StockRecord) :
  base <$> (score_row df0 <$> df) = df.
Proof. rewrite <- list_fmap_compose. apply list_fmap_id. Qed.

End Scoring.

(** ** Sub-scores *)

Section SubScores.

Import Pandas Analyzer Rows.

Local Open Scope Q_scope.

Lemma pe_bucket_cases (pe : float64) :
  match pe with
  | NaN | NegInf => pe_bucket pe = 1%Z
  | PosInf => pe_bucket pe = 2%Z
  | Finite q =>
      (q <= 0 → pe_bucket pe = 1%Z) ∧
      (0 < q < 15 → pe_bucket pe = 10%Z) ∧
      (15 <= q < 25 → pe_bucket pe = 8%Z) ∧
      (25 <= q < 35 → pe_bucket pe = 5%Z) ∧
      (35 <= q → pe_bucket pe = 2%Z)
  end.
Proof.
  destruct pe as [q| | |]; try done.
  unfold pe_bucket, of_Z, inject_Z; cbn.
  compare_cases; cbn; repeat split; intros; first [done | lra].
Qed.

(** C3. For every row, [calculate_pe_score] gives 1 when the PE ratio is
    at most 0 or absent, 10 when it is positive and below 15, 8 from 15
    to below 25, 5 from 25 to below 35, and 2 otherwise; a PE ratio of
    exactly 15 scores 8. *)
Theorem calculate_pe_score_buckets :
  (∀ df : list StockRecord,
     Forall2 (λ r s,
       match pe_ratio r with
       | NaN | NegInf => s = 1%Z
       | PosInf => s = 2%Z
       | Finite q =>
           (q <= 0 → s = 1%Z) ∧
           (0 < q < 15 → s = 10%Z) ∧
           (15 <= q < 25 → s = 8%Z) ∧
           (25 <= q < 35 → s = 5%Z) ∧
           (35 <= q → s = 2%Z)
       end) df (calculate_pe_score df)) ∧
  (∀ r : StockRecord, pe_ratio r = Finite 15 → calculate_pe_score [r] = [8%Z]).
Proof.
  split.
  - intros df. unfold calculate_pe_score. rewrite <- list_fmap_compose.
    apply Forall2_fmap_r, Forall_Forall2_diag, Forall_forall.
    intros r _. cbn. pose proof (pe_bucket_cases (pe_ratio r)) as H.
    by destruct (pe_ratio r).
  - intros r Hr. cbn. by rewrite Hr.
Qed.

Lemma calculate_pe_score_buckets_witness :
  pe_ratio (Examples.stock "ITC" 5000 (Finite 15) "Consumer") = Finite 15 ∧
  calculate_pe_score [Examples.stock "ITC" 5000 (Finite 15) "Consumer"]
  = [8%Z].
Proof.
  split; [reflexivity|].
  apply (proj2 calculate_pe_score_buckets). reflexivity.
Defined.

End SubScores.

(** ** Ranges of the scores *)

Section Ranges.

Import Pandas Analyzer Rows.

Local Open Scope Q_scope.

Lemma pe_bucket_range (pe : float64) :
  pe_bucket pe ∈ [1; 2; 5; 8; 10]%Z.
Proof. unfold pe_bucket. repeat case_match; in_list. Qed.

Lemma volume_bucket_range (p : Q) :
  volume_bucket p ∈ [2; 4; 6; 8; 10]%Z.
Proof. unfold volume_bucket. repeat case_match; in_list. Qed.

Lemma volume_score_of_range (df : list StockRecord) (r : StockRecord) :
  volume_score_of df r ∈ [2; 4; 5; 6; 8; 10]%Z.
Proof.
  unfold volume_score_of. case_match; [in_list|].
  unfold volume_bucket. repeat case_match; in_list.
Qed.

Lemma momentum_bucket_range (m : float64) :
  momentum_bucket m ∈ [2; 4; 5; 6; 8; 10]%Z.
Proof. unfold momentum_bucket. repeat case_match; in_list. Qed.

Lemma profit_bucket_range (r : StockRecord) :
  (2 ≤ profit_bucket r ≤ 10)%Z.
Proof. unfold profit_bucket. repeat case_match; lia. Qed.

(** Rounding leaves an integer alone. *)
Lemma rint_integer (x : Q) (k : Z) : x == inject_Z k → rint x = k.
Proof.
  intros Hx. unfold rint. rewrite (Qfloor_comp _ _ Hx), Qfloor_Z.
  assert ((x - inject_Z k ?= 1 # 2) = Lt) as ->; [|done].
  rewrite <- Qlt_alt, Hx. lra.
Qed.

(** The weighted sum is a whole number of hundredths, so that rounding it
    to two decimals changes nothing. *)
Lemma weighted_sum_hundredths (pe vol mom prof : Z) :
  weighted_sum pe vol mom prof * 100
  == inject_Z (25 * pe + 20 * vol + 25 * mom + 30 * prof).
Proof.
  unfold weighted_sum. rewrite !inject_Z_plus, !inject_Z_mult.
  change (inject_Z 25) with 25. change (inject_Z 20) with 20.
  change (inject_Z 30) with 30. lra.
Qed.

Lemma Qround2_weighted_sum (pe vol mom prof : Z) :
  Qround2 (weighted_sum pe vol mom prof) == weighted_sum pe vol mom prof.
Proof.
  unfold Qround2.
  rewrite (rint_integer _ _ (weighted_sum_hundredths pe vol mom prof)).
  rewrite <- weighted_sum_hundredths. field.
Qed.

End Ranges.

(** ** The overall score *)

Section Overall.

Import Pandas Analyzer Rows.

Local Open Scope Q_scope.

(** C4. The weights 0.25, 0.20, 0.25 and 0.30 are the entries of the
    named configuration [scoring_weights], they sum to exactly 1, and for
    every row the overall score is the weighted sum of the four sub-scores
    rounded to two decimals; a row whose four sub-scores are 10 has the
    overall score 10.00, as has the one row of the frame [[star]]. *)
Theorem overall_score_weighted_sum :
  scoring_weights init !! "pe_score" = Some 0.25 ∧
  scoring_weights init !! "volume_score" = Some 0.20 ∧
  scoring_weights init !! "momentum_score" = Some 0.25 ∧
  scoring_weights init !! "profit_score" = Some 0.30 ∧
  size (scoring_weights init) = 4%nat ∧
  map_fold (λ _ w acc, w + acc) 0 (scoring_weights init) == 1 ∧
  (∀ df : list StockRecord,
     ∃ sc, calculate_overall_score init df = Ok sc ∧
           base <$> sc = df ∧
           Forall (λ r,
             overall_score r
             = Qround2 (inject_Z (pe_score r) * 0.25
                        + inject_Z (volume_score r) * 0.20
                        + inject_Z (momentum_score r) * 0.25
                        + inject_Z (profit_score r) * 0.30) ∧
             (pe_score r = 10%Z → volume_score r = 10%Z →
              momentum_score r = 10%Z → profit_score r = 10%Z →
              overall_score r == 10)) sc) ∧
  (∃ r, calculate_overall_score init [Examples.star] = Ok [r] ∧
        pe_score r = 10%Z ∧ volume_score r = 10%Z ∧
        momentum_score r = 10%Z ∧ profit_score r = 10%Z ∧
        overall_score r == 10).
Proof.
  do 6 (split; [by vm_compute|]). split.
  - intros df. exists (score_row df <$> df).
    split; [apply calculate_overall_score_rows|].
    split; [apply base_score_row|].
    apply Forall_fmap, Forall_forall. intros r _. cbn. split; [done|].
    intros -> -> -> ->. by vm_compute.
  - eexists. split; [by vm_compute|]. by vm_compute.
Qed.

(** The same two facts in IEEE double arithmetic, the weights taken in
    the order of the dict: their sum, started at 0 as Python's [sum]
    does, is exactly 1.0, and the weighted sum of four tens is exactly
    10.0. *)
Lemma scoring_weights_binary64 :
  ∃ w_pe w_vol w_mom w_prof,
    weight init "pe_score" = Ok w_pe ∧
    weight init "volume_score" = Ok w_vol ∧
    weight init "momentum_score" = Ok w_mom ∧
    weight init "profit_score" = Ok w_prof ∧
    binary64_sum [w_pe; w_vol; w_mom; w_prof] = binary64 1 ∧
    binary64_weighted 10 10 10 10 w_pe w_vol w_mom w_prof = binary64 10.
Proof.
  exists 0.25, 0.20, 0.25, 0.30. by vm_compute.
Qed.

(** X26. The rational model of the overall score loses nothing: for every
    combination of sub-scores that the bucket functions can produce, the
    computation in doubles, rounding included, ends on the double nearest
    to the rational result. *)
Lemma overall_score_binary64 (pe vol mom prof : Z) :
  pe ∈ pe_values → vol ∈ volume_values → mom ∈ momentum_values →
  prof ∈ profit_values →
  binary64_agrees pe vol mom prof = true.
Proof.
  assert (forallb (λ a, forallb (λ b, forallb (λ c, forallb (λ d,
            binary64_agrees a b c d) profit_values) momentum_values)
            volume_values) pe_values = true) as H by (by vm_compute).
  intros Hpe Hvol Hmom Hprof.
  rewrite forallb_forall in H.
  specialize (H pe (proj1 (list_elem_of_In _ _) Hpe)).
  rewrite forallb_forall in H.
  specialize (H vol (proj1 (list_elem_of_In _ _) Hvol)).
  rewrite forallb_forall in H.
  specialize (H mom (proj1 (list_elem_of_In _ _) Hmom)).
  rewrite forallb_forall in H.
  exact (H prof (proj1 (list_elem_of_In _ _) Hprof)).
Qed.

Lemma overall_score_weighted_sum_witness :
  ∃ sc, calculate_overall_score init [Examples.star] = Ok sc ∧
        Forall (λ r, overall_score r == 10) sc.
Proof.
  destruct overall_score_weighted_sum as (_ & _ & _ & _ & _ & _ & H & _).
  destruct (H [Examples.star]) as (sc & Hsc & _ & Hall).
  exists sc. split; [exact Hsc|].
  rewrite calculate_overall_score_rows in Hsc. injection Hsc as <-.
  apply Forall_cons in Hall as [[_ Hr] _].
  constructor; [|constructor]. apply Hr; reflexivity.
Defined.

(** The score fields of the scored rows depend on the scoring inputs of
    the rows and on the volume column of the frame, on nothing else. *)
Lemma score_row_inputs (df0 df0' l l' : list StockRecord) :
  volume <$> df0' = volume <$> df0 →
  scoring_inputs <$> l' = scoring_inputs <$> l →
  score_fields <$> (score_row df0' <$> l')
  = score_fields <$> (score_row df0 <$> l).
Proof.
  intros Hvol. revert l'.
  induction l as [|r l IH]; intros [|r' l'] Hl; try done.
  injection Hl as Hpe Hv Hm Hp Hroe Hl.
  rewrite !fmap_cons. f_equal; [|by apply IH].
  unfold score_fields, score_row, volume_score_of, profit_bucket; cbn.
  by rewrite Hvol, Hpe, Hv, Hm, Hp, Hroe.
Qed.

Lemma volume_of_inputs (l l' : list StockRecord) :
  scoring_inputs <$> l' = scoring_inputs <$> l → volume <$> l' = volume <$> l.
Proof.
  intros H.
  apply (f_equal (fmap (λ t : float64 * Z * float64 * float64 * float64,
                          t.1.1.1.2))) in H.
  by rewrite <- !list_fmap_compose in H.
Qed.

(** C8. Scoring is a function of the unscored frame: the step returns a
    scored frame, two runs on the same frame return the same one, running
    it again on its own output changes nothing, and the five score fields
    are determined by the fields [pe_ratio], [volume], [momentum_30d],
    [profit_margin] and [roe] of the rows of the frame. *)
Theorem calculate_overall_score_deterministic (df : list StockRecord) :
  ∃ sc, calculate_overall_score init df = Ok sc ∧
        base <$> sc = df ∧
        (∀ sc1 sc2, calculate_overall_score init df = Ok sc1 →
                    calculate_overall_score init df = Ok sc2 → sc1 = sc2) ∧
        rescore init sc = Ok sc ∧
        (∀ df' sc',
           scoring_inputs <$> df' = scoring_inputs <$> df →
           calculate_overall_score init df' = Ok sc' →
           score_fields <$> sc' = score_fields <$> sc).
Proof.
  exists (score_row df <$> df).
  split; [apply calculate_overall_score_rows|].
  split; [apply base_score_row|].
  split; [congruence|].
  split.
  - unfold rescore. rewrite base_score_row.
    apply calculate_overall_score_rows.
  - intros df' sc' Hin. rewrite calculate_overall_score_rows.
    intros [= <-]. apply score_row_inputs; [|done].
    by apply volume_of_inputs.
Qed.

Lemma calculate_overall_score_deterministic_witness :
  ∃ sc sc',
    calculate_overall_score init Examples.same_volume_2 = Ok sc ∧
    calculate_overall_score init Examples.same_volume_2_renamed = Ok sc' ∧
    score_fields <$> sc' = score_fields <$> sc.
Proof.
  destruct (calculate_overall_score_deterministic Examples.same_volume_2)
    as (sc & Hsc & _ & _ & _ & Hin).
  exists sc, (score_row Examples.same_volume_2_renamed
              <$> Examples.same_volume_2_renamed).
  split; [exact Hsc|].
  split; [apply calculate_overall_score_rows|].
  apply (Hin Examples.same_volume_2_renamed);
    [reflexivity | apply calculate_overall_score_rows].
Defined.

(** C10. After the scoring of a frame that is not empty, every row has
    its PE score in {1, 2, 5, 8, 10}, its volume score and its momentum
    score in {2, 4, 5, 6, 8, 10}, its profit score between 2 and 10, and
    its overall score between 1.75 and 10. *)
Theorem scores_in_range (df : list StockRecord) :
  df ≠ [] →
  ∃ sc, calculate_overall_score init df = Ok sc ∧
        length sc = length df ∧
        Forall (λ r,
          pe_score r ∈ [1; 2; 5; 8; 10]%Z ∧
          volume_score r ∈ [2; 4; 5; 6; 8; 10]%Z ∧
          momentum_score r ∈ [2; 4; 5; 6; 8; 10]%Z ∧
          (2 ≤ profit_score r ≤ 10)%Z ∧
          1.75 <= overall_score r <= 10) sc.
Proof.
  intros _. exists (score_row df <$> df).
  split; [apply calculate_overall_score_rows|].
  split; [apply length_fmap|].
  apply Forall_fmap, Forall_forall. intros r _. cbn.
  pose proof (pe_bucket_range (pe_ratio r)) as Hpe.
  pose proof (volume_score_of_range df r) as Hvol.
  pose proof (momentum_bucket_range (momentum_30d r)) as Hmom.
  pose proof (profit_bucket_range r) as Hprof.
  do 4 (split; [done|]).
  rewrite Qround2_weighted_sum.
  assert (1 ≤ pe_bucket (pe_ratio r) ≤ 10)%Z as H1
    by (revert Hpe; rewrite !elem_of_cons, elem_of_nil; lia).
  assert (2 ≤ volume_score_of df r ≤ 10)%Z as H2
    by (revert Hvol; rewrite !elem_of_cons, elem_of_nil; lia).
  assert (2 ≤ momentum_bucket (momentum_30d r) ≤ 10)%Z as H3
    by (revert Hmom; rewrite !elem_of_cons, elem_of_nil; lia).
  assert (175 ≤ 25 * pe_bucket (pe_ratio r) + 20 * volume_score_of df r
                + 25 * momentum_bucket (momentum_30d r)
                + 30 * profit_bucket r ≤ 1000)%Z as [Hlo Hhi] by lia.
  rewrite Zle_Qle in Hlo, Hhi.
  rewrite <- weighted_sum_hundredths in Hlo, Hhi.
  change (inject_Z 175) with 175 in Hlo.
  change (inject_Z 1000) with 1000 in Hhi.
  split; lra.
Qed.

Lemma scores_in_range_witness :
  Examples.same_volume_3 ≠ [] ∧
  ∃ sc, calculate_overall_score init Examples.same_volume_3 = Ok sc ∧
        Forall (λ r, 1.75 <= overall_score r <= 10) sc.
Proof.
  assert (Examples.same_volume_3 ≠ []) as Hne by discriminate.
  split; [exact Hne|].
  destruct (scores_in_range Examples.same_volume_3 Hne)
    as (sc & Hsc & _ & Hall).
  exists sc. split; [exact Hsc|].
  eapply Forall_impl; [exact Hall|]. intros r H. apply H.
Defined.

End Overall.

(** ** The volume score on a frame of equal volumes *)

Section EqualVolumes.

Import Pandas Analyzer Rows.

Local Open Scope Q_scope.

(** [lra] does not read a division: halving becomes a product. *)
Ltac half := unfold Qdiv; change (/ 2) with (1 # 2).

Lemma filter_replicate_none {A} (P : A → Prop) `{∀ x, Decision (P x)}
    (n : nat) (x : A) :
  ¬ P x → filter P (replicate n x) = [].
Proof.
  intros Hx. induction n as [|n IH]; [done|]. cbn [replicate].
  by rewrite filter_cons_False.
Qed.

Lemma filter_replicate_all {A} (P : A → Prop) `{∀ x, Decision (P x)}
    (n : nat) (x : A) :
  P x → filter P (replicate n x) = replicate n x.
Proof.
  intros Hx. induction n as [|n IH]; [done|]. cbn [replicate].
  rewrite filter_cons_True by done. by f_equal.
Qed.

Lemma sum_replicate (n : nat) (v : Z) :
  foldr Z.add 0%Z (replicate n v) = (Z.of_nat n * v)%Z.
Proof. induction n as [|n IH]; cbn [replicate foldr]; lia. Qed.

Lemma equal_volumes_column (df : list StockRecord) (v : Z) :
  Forall (λ r, volume r = v) df → volume <$> df = replicate (length df) v.
Proof. induction 1 as [|r df Hr _ IH]; cbn; [done|]. by rewrite Hr, IH. Qed.

(** In a column of [n] equal values each value has the rank [(n + 1) / 2]. *)
Lemma rank_average_replicate (n : nat) (v : Z) :
  rank_average (replicate n v) v
  = inject_Z 0 + (inject_Z (Z.of_nat n) + 1) / 2.
Proof.
  unfold rank_average.
  rewrite filter_replicate_none by lia.
  rewrite filter_replicate_all by done.
  by rewrite length_replicate.
Qed.

(** The bucket of the percentile [(n + 1) / (2 n)]. *)
Lemma volume_bucket_equal_volumes (n : nat) :
  volume_bucket
    ((inject_Z 0 + (inject_Z (Z.of_nat (S n)) + 1) / 2)
     / inject_Z (Z.of_nat (S n)))
  = if (n =? 0)%nat then 10%Z else if (n <=? 4)%nat then 8%Z else 6%Z.
Proof.
  do 5 (destruct n as [|n]; [by vm_compute|]).
  change (_ =? _)%nat with false. change (_ <=? _)%nat with false. cbn iota.
  set (N := inject_Z (Z.of_nat (S (S (S (S (S (S n)))))))).
  assert (6 <= N) as HN.
  { change 6 with (inject_Z 6). unfold N. rewrite <- Zle_Qle. lia. }
  clearbody N. change (inject_Z 0) with 0.
  unfold volume_bucket.
  assert (Qle_bool 0.8 ((0 + (N + 1) / 2) / N) = false) as ->.
  { apply Qle_bool_false, Qlt_shift_div_r; half; lra. }
  assert (Qle_bool 0.6 ((0 + (N + 1) / 2) / N) = false) as ->.
  { apply Qle_bool_false, Qlt_shift_div_r; half; lra. }
  assert (Qle_bool 0.4 ((0 + (N + 1) / 2) / N) = true) as ->; [|done].
  apply Qle_bool_iff, Qle_shift_div_l; half; lra.
Qed.

(** Within the range of [int64] nothing wraps. *)
Lemma wrap64_small (z : Z) : int64 z → wrap64 z = z.
Proof.
  unfold int64, wrap64. intros Hz.
  rewrite Z.mod_small; lia.
Qed.

(** C1, as the code has it. In a frame of [n] rows whose volumes are all
    the same [int64] value, not zero, the percentile rank of every row is
    its average rank [(n + 1) / 2] over [n].  When the [int64] sum of the
    volumes is not 0, [calculate_volume_score] gives every row 10 when [n]
    is 1, 8 when [n] is 2 to 5, and 6 when [n] is 6 or more; when the sum
    wraps around to 0, it gives every row the neutral 5.  The sum is not 0
    as soon as [n] times the volume is within the range of [int64]. *)
Theorem calculate_volume_score_equal_volumes
    (df : list StockRecord) (v : Z) :
  v ≠ 0%Z → int64 v →
  Forall (λ r, volume r = v) df →
  Forall (λ p, p == (inject_Z (Z.of_nat (length df)) + 1)
                    / (2 * inject_Z (Z.of_nat (length df))))
    (rank_pct (volume <$> df)) ∧
  calculate_volume_score df
  = replicate (length df)
      (if (sum_int64 (volume <$> df) =? 0)%Z then 5%Z
       else if (length df =? 1)%nat then 10%Z
       else if (length df <=? 5)%nat then 8%Z else 6%Z) ∧
  (df ≠ [] → int64 (Z.of_nat (length df) * v) →
   sum_int64 (volume <$> df) ≠ 0%Z).
Proof.
  intros Hv _ Hdf. pose proof (equal_volumes_column df v Hdf) as Hcol.
  assert (rank_pct (volume <$> df)
          = replicate (length df)
              ((inject_Z 0 + (inject_Z (Z.of_nat (length df)) + 1) / 2)
               / inject_Z (Z.of_nat (length df)))) as Hpct.
  { unfold rank_pct. rewrite Hcol, fmap_replicate.
    by rewrite rank_average_replicate, length_replicate. }
  split; [|split].
  - rewrite Hpct. destruct (length df) as [|n]; [constructor|].
    apply Forall_replicate.
    assert (1 <= inject_Z (Z.of_nat (S n))) as HN.
    { change 1 with (inject_Z 1). rewrite <- Zle_Qle. lia. }
    change (inject_Z 0) with 0. field. lra.
  - unfold calculate_volume_score.
    destruct (sum_int64 (volume <$> df) =? 0)%Z; [done|].
    rewrite Hpct, fmap_replicate.
    destruct (length df) as [|n] eqn:Hn; [done|].
    rewrite volume_bucket_equal_volumes.
    by destruct n as [|[|[|[|[|n]]]]].
  - intros Hne Hfit. unfold sum_int64.
    rewrite Hcol, sum_replicate, wrap64_small by done.
    destruct df; [done|]. cbn [length].
    intros [H|H]%Z.mul_eq_0; lia.
Qed.

Lemma calculate_volume_score_equal_volumes_witness :
  100%Z ≠ 0%Z ∧ int64 100 ∧
  Forall (λ r, volume r = 100%Z) Examples.same_volume_3 ∧
  calculate_volume_score Examples.same_volume_3 = [8; 8; 8]%Z.
Proof.
  assert (100%Z ≠ 0%Z) as H0 by lia.
  assert (int64 100) as Hi by (unfold int64; lia).
  assert (Forall (λ r, volume r = 100%Z) Examples.same_volume_3) as H1
    by (repeat constructor).
  split; [exact H0|]. split; [exact Hi|]. split; [exact H1|].
  exact (proj1 (proj2 (calculate_volume_score_equal_volumes
                         Examples.same_volume_3 100 H0 Hi H1))).
Defined.

(** Four rows of volume 2^62: the sum wraps around to 0, and every row
    gets 5. *)
Lemma calculate_volume_score_wraps :
  Forall (λ r, int64 (volume r)) Examples.wrapping_4 ∧
  sum_int64 (volume <$> Examples.wrapping_4) = 0%Z ∧
  calculate_volume_score Examples.wrapping_4 = [5; 5; 5; 5]%Z.
Proof.
  split; [|split; by vm_compute].
  repeat constructor; by vm_compute.
Qed.

(** C1, as the claim has it, fails: with two rows of volume 100 the
    percentile of each is 0.75 and the score of each is 8, not 10. *)
Lemma calculate_volume_score_ties_counterexample :
  Forall (λ r, volume r = 100%Z) Examples.same_volume_2 ∧
  Forall (λ p, p == 0.75) (rank_pct (volume <$> Examples.same_volume_2)) ∧
  calculate_volume_score Examples.same_volume_2 = [8; 8]%Z ∧
  ¬ (∀ (df : list StockRecord) (v : Z),
       v ≠ 0%Z → Forall (λ r, volume r = v) df →
       Forall (λ s, s = 10%Z) (calculate_volume_score df)).
Proof.
  split; [by repeat constructor|].
  split; [by repeat constructor|].
  split; [by vm_compute|].
  intros H. specialize (H Examples.same_volume_2 100%Z).
  apply Forall_cons in H as [H _]; [done|lia|by repeat constructor].
Qed.

End EqualVolumes.

(** ** [get_top_stocks] *)

Section TopStocks.

Import Pandas Analyzer Rows.

Local Open Scope Q_scope.

Lemma assoc_None {V} (name : string) (l : list (string * V)) :
  name ∉ l.*1 → assoc name l = None.
Proof.
  induction l as [|[k v] l IH]; cbn; [done|].
  rewrite not_elem_of_cons. intros [Hne Hl].
  destruct (String.eqb_spec k name) as [->|_]; [done|]. by apply IH.
Qed.

(** A sorted list is sorted for any relation that the first one implies
    on its elements. *)
Lemma StronglySorted_weaken {A} (P : A → Prop) (R R' : A → A → Prop)
    (l : list A) :
  (∀ x y, P x → P y → R x y → R' x y) →
  Forall P l → StronglySorted R l → StronglySorted R' l.
Proof.
  intros HR HP Hl. induction Hl as [|x l Hl IH Hx]; [constructor|].
  apply Forall_cons in HP as [Hpx HP].
  constructor; [by apply IH|].
  rewrite Forall_forall in *. intros y Hy. apply HR; auto.
Qed.

(** A descending sort of finite values is descending for [<=]. *)
Lemma desc_overall_score (x y : ScoredRecord) :
  desc (λ r, Finite (overall_score r)) x y ↔
  overall_score y <= overall_score x.
Proof. apply precedes_finite. Qed.

(** C5. For a numeric metric, [get_top_stocks] returns [n] rows of the
    frame (all of them when the frame has fewer), in descending order of
    the metric; no row left out has a larger value than a row returned;
    and among rows of equal value the ones returned are the first of the
    frame, in frame order.  On five rows with the overall scores 9.1, 4.0,
    7.5, 9.1 and 2.0, the top three are the first row, the fourth row and
    the third row. *)
Theorem get_top_stocks_largest :
  (∀ (df : list ScoredRecord) (metric : string)
     (key : ScoredRecord → float64) (n : Z),
     assoc metric schema = Some (NumCol key) →
     ∃ top, get_top_stocks df metric n = Ok top ∧
            length top = Nat.min (Z.to_nat n) (length df) ∧
            StronglySorted (desc key) top ∧
            (∃ rest, top ++ rest ≡ₚ df ∧
                     ∀ x y, x ∈ top → y ∈ rest → desc key x y) ∧
            (∀ k, filter (λ r, tied (key r) k = true) top
                    `prefix_of` filter (λ r, tied (key r) k = true) df)) ∧
  (∀ (df : list ScoredRecord) (n : Z),
     ∃ top rest,
       get_top_stocks df "overall_score" n = Ok top ∧
       top ++ rest ≡ₚ df ∧
       StronglySorted (λ x y, overall_score y <= overall_score x) top ∧
       (∀ x y, x ∈ top → y ∈ rest → overall_score y <= overall_score x)) ∧
  get_top_stocks Examples.five_rows "overall_score" 3%Z
  = Ok [ Examples.scored "A" (Finite 10) 9.1;
         Examples.scored "D" (Finite 13) 9.1;
         Examples.scored "C" (Finite 12) 7.5 ].
Proof.
  split; [|split; [|by vm_compute]].
  - intros df metric key n Hcol. unfold get_top_stocks. rewrite Hcol.
    eexists. split; [done|].
    split; [apply nlargest_length|].
    split; [apply nlargest_sorted|].
    split; [apply nlargest_largest|].
    intros k. apply nlargest_stable.
  - intros df n.
    destruct (nlargest_largest (λ r, Finite (overall_score r)) n df)
      as (rest & Hperm & Hrest).
    exists (nlargest (λ r, Finite (overall_score r)) n df), rest.
    split; [done|]. split; [done|]. split.
    + eapply (StronglySorted_weaken (λ _, True));
        [|by apply Forall_true|apply nlargest_sorted].
      intros x y _ _. apply desc_overall_score.
    + intros x y Hx Hy. by apply desc_overall_score, Hrest.
Qed.

Lemma get_top_stocks_largest_witness :
  assoc "overall_score" schema
  = Some (NumCol (λ r, Finite (overall_score r))) ∧
  ∃ top, get_top_stocks Examples.five_rows "overall_score" 3%Z = Ok top ∧
         length top = 3%nat.
Proof.
  split; [reflexivity|].
  destruct (proj1 get_top_stocks_largest Examples.five_rows "overall_score"
              (λ r, Finite (overall_score r)) 3%Z eq_refl)
    as (top & Htop & Hlen & _).
  exists top. split; [exact Htop | exact Hlen].
Defined.

(** C9, as the code has it. A metric that is not a column makes
    [get_top_stocks] raise [ValueError]; a metric that names a numeric
    column raises nothing; a metric that names a text column makes
    [nlargest] raise [TypeError]. Every column is of one of the two
    kinds. *)
Theorem get_top_stocks_errors :
  (∀ (df : list ScoredRecord) (metric : string) (n : Z),
     metric ∉ columns →
     get_top_stocks df metric n
     = Raise (ValueError
                ("Metric '" ++ metric ++ "' not found in dataframe"))) ∧
  (∀ (df : list ScoredRecord) (metric : string) (n : Z),
     metric ∈ numeric_columns →
     ∃ top, get_top_stocks df metric n = Ok top) ∧
  (∀ (df : list ScoredRecord) (metric : string) (n : Z),
     metric ∈ text_columns →
     ∃ msg, get_top_stocks df metric n = Raise (TypeError msg)) ∧
  columns ≡ₚ numeric_columns ++ text_columns.
Proof.
  split; [|split; [|split]].
  - intros df metric n Hcol. unfold get_top_stocks.
    by rewrite (assoc_None _ _ Hcol).
  - intros df metric n Hin. unfold numeric_columns in Hin.
    repeat (apply elem_of_cons in Hin as [->|Hin]; [by eexists|]).
    by apply elem_of_nil in Hin.
  - intros df metric n Hin. unfold text_columns in Hin.
    repeat (apply elem_of_cons in Hin as [->|Hin]; [by eexists|]).
    by apply elem_of_nil in Hin.
  - apply (bool_decide_unpack _). by vm_compute.
Qed.

Lemma get_top_stocks_errors_witness :
  ("dividend" ∉ columns) ∧
  get_top_stocks Examples.five_rows "dividend" 3%Z
  = Raise (ValueError "Metric 'dividend' not found in dataframe").
Proof.
  assert ("dividend" ∉ columns) as H.
  { apply (bool_decide_unpack _). by vm_compute. }
  split; [exact H|].
  exact (proj1 get_top_stocks_errors Examples.five_rows "dividend" 3%Z H).
Defined.

(** C9, as the claim has it, fails: [symbol] is a column, and asking for
    the top rows by it raises. *)
Lemma get_top_stocks_text_counterexample :
  "symbol" ∈ columns ∧
  get_top_stocks Examples.five_rows "symbol" 3%Z
  = Raise (TypeError
             ("Column 'symbol' has dtype object, " ++
              "cannot use method 'nlargest' with this dtype")) ∧
  ¬ (∀ (df : list ScoredRecord) (metric : string) (n : Z),
       metric ∈ columns → ∃ top, get_top_stocks df metric n = Ok top).
Proof.
  assert ("symbol" ∈ columns) as H by apply list_elem_of_here.
  split; [exact H|]. split; [by vm_compute|].
  intros Hall. by destruct (Hall Examples.five_rows "symbol" 3%Z H).
Qed.

End TopStocks.

(** ** [get_stocks_by_criteria] *)

Section Criteria.

Import Pandas Analyzer Rows.

Local Open Scope Q_scope.

Lemma ge_at_least (a : float64) (c : Q) :
  fge a (Finite c) = true ↔ at_least a c.
Proof. destruct a; cbn; [apply Qle_bool_iff|done..]. Qed.

Lemma le_at_most (a : float64) (c : Q) :
  fle a (Finite c) = true ↔ at_most a c.
Proof. destruct a; cbn; [apply Qle_bool_iff|done..]. Qed.

Lemma ge_of_Z (v : Z) (c : Q) :
  fge (of_Z v) (Finite c) = true ↔ c <= inject_Z v.
Proof. apply Qle_bool_iff. Qed.

Lemma filter_all {A} (P : A → Prop) `{∀ x, Decision (P x)} (l : list A) :
  (∀ x, P x) → filter P l = l.
Proof.
  intros HP. induction l as [|x l IH]; [done|].
  rewrite filter_cons_True by done. by f_equal.
Qed.

Lemma apply_criterion_filter (criteria : gmap string Q) (key : string)
    (keep : Q → ScoredRecord → bool) (l : list ScoredRecord) :
  apply_criterion criteria key keep l
  = filter (λ r, passes criteria key keep r = true) l.
Proof.
  unfold apply_criterion, passes. destruct (criteria !! key) as [c|].
  - apply list_filter_iff. intros r. apply Is_true_true.
  - by rewrite filter_all.
Qed.

Lemma get_stocks_by_criteria_filter (df : list ScoredRecord)
    (criteria : gmap string Q) :
  get_stocks_by_criteria df criteria
  = filter (λ r, passes_all criteria r = true) df.
Proof.
  unfold get_stocks_by_criteria. rewrite !apply_criterion_filter.
  rewrite !list_filter_filter. apply list_filter_iff. intros r.
  unfold passes_all. rewrite !andb_true_iff. tauto.
Qed.

Lemma passes_iff (criteria : gmap string Q) (key : string)
    (keep : Q → ScoredRecord → bool) (P : Q → Prop) (r : ScoredRecord) :
  (∀ c, keep c r = true ↔ P c) →
  passes criteria key keep r = true ↔ ∀ c, criteria !! key = Some c → P c.
Proof.
  intros HP. unfold passes. destruct (criteria !! key) as [c|].
  - rewrite HP. split; [by intros ? ? [= <-]|auto].
  - split; [done|auto].
Qed.

Lemma passes_all_meets (criteria : gmap string Q) (r : ScoredRecord) :
  passes_all criteria r = true ↔ meets criteria r.
Proof.
  unfold passes_all, meets. rewrite !andb_true_iff.
  rewrite (passes_iff _ "min_pe" _ _ r (ge_at_least _)).
  rewrite (passes_iff _ "max_pe" _ _ r (le_at_most _)).
  rewrite (passes_iff _ "min_momentum" _ _ r (ge_at_least _)).
  rewrite (passes_iff _ "min_profit_margin" _ _ r (ge_at_least _)).
  rewrite (passes_iff _ "min_volume" _ _ r (ge_of_Z _)).
  tauto.
Qed.

(** C6. [get_stocks_by_criteria] keeps, in frame order, exactly the rows
    that meet every recognised key present in the criteria; absent keys
    and keys that are not recognised constrain nothing; with
    [{min_pe: 10, max_pe: 20}] the rows kept are those whose PE ratio lies
    between 10 and 20, and of three rows with the PE ratios 5, 15 and 25
    only the second is kept.  Under [min_profit_margin] a row is compared
    by its margin times 100 as doubles give it: the margin 0.29 gives a
    product just below 29, so that the threshold 29 drops the row and
    28.9 keeps it. *)
Theorem get_stocks_by_criteria_meets :
  (∀ (df : list ScoredRecord) (criteria : gmap string Q),
     ∃ keep : ScoredRecord → bool,
       get_stocks_by_criteria df criteria = filter (λ r, keep r = true) df ∧
       ∀ r, keep r = true ↔ meets criteria r) ∧
  (∀ (df : list ScoredRecord) (criteria : gmap string Q),
     (∀ k, k ∈ recognised_keys → criteria !! k = None) →
     get_stocks_by_criteria df criteria = df) ∧
  (∀ (df : list ScoredRecord) (criteria : gmap string Q) (k : string) (v : Q),
     k ∉ recognised_keys →
     get_stocks_by_criteria df (<[k:=v]> criteria)
     = get_stocks_by_criteria df criteria) ∧
  (∀ (df : list ScoredRecord) (r : ScoredRecord),
     r ∈ get_stocks_by_criteria df Examples.pe_10_20 ↔
     r ∈ df ∧ ∃ x, pe_ratio (base r) = Finite x ∧ 10 <= x ∧ x <= 20) ∧
  get_stocks_by_criteria Examples.three_pe Examples.pe_10_20
  = [ Examples.scored "B" (Finite 15) 7.2 ] ∧
  get_stocks_by_criteria [ Examples.margin_29 ] {[ "min_profit_margin" := 29 ]}
  = [] ∧
  get_stocks_by_criteria [ Examples.margin_29 ]
    {[ "min_profit_margin" := 28.9 ]}
  = [ Examples.margin_29 ].
Proof.
  split; [|split; [|split; [|split; [|split; [|split]]]]].
  - intros df criteria. exists (passes_all criteria).
    split; [apply get_stocks_by_criteria_filter|].
    intros r. apply passes_all_meets.
  - intros df criteria Hnone. rewrite get_stocks_by_criteria_filter.
    apply filter_all. intros r. unfold passes_all, passes.
    rewrite !Hnone; [done|unfold recognised_keys; in_list..].
  - intros df criteria k v Hk. unfold recognised_keys in Hk.
    rewrite !not_elem_of_cons in Hk.
    destruct Hk as (H1 & H2 & H3 & H4 & H5 & _).
    rewrite !get_stocks_by_criteria_filter. unfold passes_all, passes.
    by rewrite !lookup_insert_ne.
  - intros df r. rewrite get_stocks_by_criteria_filter, list_elem_of_filter.
    rewrite passes_all_meets. unfold meets.
    change (Examples.pe_10_20 !! "min_pe") with (Some 10).
    change (Examples.pe_10_20 !! "max_pe") with (Some 20).
    change (Examples.pe_10_20 !! "min_momentum") with (@None Q).
    change (Examples.pe_10_20 !! "min_profit_margin") with (@None Q).
    change (Examples.pe_10_20 !! "min_volume") with (@None Q).
    split.
    + intros [(Hmin & Hmax & _) Hr]. split; [done|].
      specialize (Hmin _ eq_refl). specialize (Hmax _ eq_refl).
      destruct (pe_ratio (base r)) as [x| | |]; try done. by exists x.
    + intros [Hr (x & Hx & Hlo & Hhi)]. split; [|done].
      rewrite Hx. repeat split; intros c [= <-] || intros c [=]; done.
  - by vm_compute.
  - by vm_compute.
  - by vm_compute.
Qed.

Lemma get_stocks_by_criteria_meets_witness :
  (∀ k, k ∈ recognised_keys → (∅ : gmap string Q) !! k = None) ∧
  get_stocks_by_criteria Examples.three_pe ∅ = Examples.three_pe.
Proof.
  assert (∀ k, k ∈ recognised_keys → (∅ : gmap string Q) !! k = None) as H
    by (intros k _; apply lookup_empty).
  split; [exact H|].
  destruct get_stocks_by_criteria_meets as (_ & Hnone & _).
  exact (Hnone Examples.three_pe ∅ H).
Defined.

End Criteria.

(** ** The batch fetch *)

Section FetchBatch.

Import Fetcher.

Context {World : Type}.
Variable provider : string → World → option (Info * list Bar) * World.

(** The fallback list has 47 symbols. *)
Lemma nifty50_symbols_length : length nifty50_symbols = 47%nat.
Proof. reflexivity. Qed.

Lemma fetch_loop_outcomes (symbols : list string)
    (stock_data : list StockRecord) (w : World) :
  (fetch_loop World provider symbols stock_data w).1
  = stock_data ++ omap id (outcomes World provider symbols w).
Proof.
  revert stock_data w.
  induction symbols as [|s symbols IH]; intros stock_data w; cbn.
  - by rewrite app_nil_r.
  - destruct (get_stock_details_yfinance World provider s w) as [[r|] w'].
    + rewrite IH. cbn. by rewrite <- app_assoc.
    + by rewrite IH.
Qed.

Lemma outcomes_length (symbols : list string) (w : World) :
  length (outcomes World provider symbols w) = length symbols.
Proof.
  revert w. induction symbols as [|s symbols IH]; intros w; cbn; [done|].
  destruct (get_stock_details_yfinance World provider s w) as [r w'].
  cbn. by rewrite IH.
Qed.

Lemma omap_id_length {A} (l : list (option A)) :
  (length (omap id l) ≤ length l)%nat.
Proof. induction l as [|[x|] l IH]; cbn; lia. Qed.

Lemma omap_id_all_None {A} (l : list (option A)) :
  Forall (λ o, o = None) l → omap id l = [].
Proof. induction 1 as [|o l -> _ IH]; cbn; done. Qed.

(** C7. [get_multiple_stocks_data] asks for the first [max_stocks]
    symbols only, and returns the records of the requests that did not
    come back absent, in request order: at most [max_stocks] records, and
    the empty frame when every request came back absent.  The default of
    [max_stocks] is 20, and a request whose price history is empty comes
    back absent. *)
Theorem get_multiple_stocks_data_outcomes
    (symbols : list string) (max_stocks : Z) (w : World) :
  (0 ≤ max_stocks)%Z →
  (get_multiple_stocks_data World provider symbols max_stocks w).1
  = omap id (outcomes World provider (take (Z.to_nat max_stocks) symbols) w)
  ∧ (length (get_multiple_stocks_data World provider symbols max_stocks w).1
     ≤ Z.to_nat max_stocks)%nat
  ∧ (Forall (λ o, o = None)
       (outcomes World provider (take (Z.to_nat max_stocks) symbols) w) →
     (get_multiple_stocks_data World provider symbols max_stocks w).1 = [])
  ∧ default_max_stocks = 20%Z
  ∧ (∀ symbol info, build_record symbol info [] = None).
Proof.
  intros Hmax.
  assert ((get_multiple_stocks_data World provider symbols max_stocks w).1
          = omap id (outcomes World provider
                       (take (Z.to_nat max_stocks) symbols) w)) as Heq.
  { unfold get_multiple_stocks_data, slice_to.
    assert ((0 <=? max_stocks)%Z = true) as -> by lia.
    by rewrite fetch_loop_outcomes. }
  split; [exact Heq|]. split; [|split; [|done]].
  - rewrite Heq. etrans; [apply omap_id_length|].
    rewrite outcomes_length, length_take. lia.
  - intros Hnone. rewrite Heq. by apply omap_id_all_None.
Qed.

End FetchBatch.

Lemma get_multiple_stocks_data_outcomes_witness :
  (0 ≤ 3)%Z ∧
  symbol <$> (Fetcher.get_multiple_stocks_data nat Examples.only_tcs
                [ "INFY"; "TCS"; "WIPRO"; "TCS" ] 3 0%nat).1
  = [ "TCS" ].
Proof.
  assert (0 ≤ 3)%Z as H by lia.
  split; [exact H|].
  rewrite (proj1 (get_multiple_stocks_data_outcomes Examples.only_tcs
                    [ "INFY"; "TCS"; "WIPRO"; "TCS" ] 3 0%nat H)).
  reflexivity.
Defined.

(** ** [get_sector_analysis] *)

Section SectorAnalysis.

Import Pandas Analyzer Rows.

Local Open Scope Q_scope.

Lemma group_keys_Permutation (col : list (option string)) :
  group_keys col ≡ₚ remove_dups (omap id col).
Proof. apply merge_sort_Permutation. Qed.

Lemma elem_of_group_keys (col : list (option string)) (k : string) :
  k ∈ group_keys col ↔ Some k ∈ col.
Proof.
  rewrite group_keys_Permutation, elem_of_remove_dups, list_elem_of_omap.
  split; [|intros Hk; by exists (Some k)].
  intros (o & Ho & Heq). unfold id in Heq. by subst o.
Qed.

Lemma NoDup_group_keys (col : list (option string)) :
  NoDup (group_keys col).
Proof. rewrite group_keys_Permutation. apply NoDup_remove_dups. Qed.

Lemma filter_notna_finite (qs : list Q) :
  filter (λ x, isna x = false) (Finite <$> qs) = Finite <$> qs.
Proof.
  induction qs as [|q qs IH]; [done|]. rewrite fmap_cons.
  rewrite filter_cons_True by done. by f_equal.
Qed.

Lemma count_notna_finite (qs : list Q) :
  count_notna (Finite <$> qs) = length qs.
Proof.
  unfold count_notna. by rewrite filter_notna_finite, length_fmap.
Qed.



Lemma rows_of_nonempty (df : list ScoredRecord) (key : string) :
  Some key ∈ (λ r, sector (base r)) <$> df → rows_of df key ≠ [].
Proof.
  intros (r & Hkey & Hr)%list_elem_of_fmap Hnil.
  assert (r ∈ rows_of df key) as Hin by (by apply list_elem_of_filter).
  rewrite Hnil in Hin. by apply elem_of_nil in Hin.
Qed.

Section AnyMean.

Variable mean_round2 : list float64 → float64.

Lemma stock_count_aggregate (df : list ScoredRecord) (key : string) :
  stock_count (aggregate mean_round2 df key) = length (rows_of df key).
Proof.
  cbn. rewrite (list_fmap_compose overall_score Finite).
  by rewrite count_notna_finite, length_fmap.
Qed.

Lemma get_sector_analysis_Permutation (df : list ScoredRecord) :
  get_sector_analysis mean_round2 df
  ≡ₚ aggregate mean_round2 df
       <$> group_keys ((λ r, sector (base r)) <$> df).
Proof. apply sort_desc_Permutation. Qed.

Lemma group_get_sector_analysis (df : list ScoredRecord) :
  group <$> get_sector_analysis mean_round2 df
  ≡ₚ group_keys ((λ r, sector (base r)) <$> df).
Proof.
  rewrite get_sector_analysis_Permutation, <- list_fmap_compose.
  by rewrite list_fmap_id.
Qed.

(** What holds of every row of the sector table. *)
Lemma get_sector_analysis_rows (df : list ScoredRecord) :
  Forall (λ g,
    stock_count g
    = length (filter (λ r, sector (base r) = Some (group g)) df) ∧
    (0 < stock_count g)%nat ∧
    avg_score g
    = mean_round2
        ((λ r, Finite (overall_score r))
           <$> filter (λ r, sector (base r) = Some (group g)) df))
    (get_sector_analysis mean_round2 df).
Proof.
  rewrite get_sector_analysis_Permutation.
  apply Forall_fmap, Forall_forall. intros key Hkey.
  apply elem_of_group_keys, rows_of_nonempty in Hkey.
  split; [apply stock_count_aggregate|]. split; [|done].
  rewrite stock_count_aggregate. destruct (rows_of df key); [done|cbn; lia].
Qed.

End AnyMean.

(** C2, as the code has it. [get_sector_analysis] has one row for each
    sector value of the frame and no other row: the rows of the frame
    whose sector is missing are in no group, and are not counted.  The
    count of a row of the table is the number of rows of the frame with
    exactly that sector, and its [avg_score] is the rounded mean of their
    overall scores; the rows come in descending order of [avg_score], NaN
    last.  This holds whatever the doubles that the mean and the rounding
    give.  A record whose sector the provider did not send carries the
    sector "Unknown", and is counted in the row of that name; a record
    whose sector the provider sent as [None] has no sector. *)
Theorem get_sector_analysis_groups :
  (∀ (name : string) (info : Fetcher.Info) (hist : list Fetcher.Bar)
     (r : StockRecord),
     Fetcher.build_record name info hist = Some r →
     sector r = default (Some "Unknown") (Fetcher.info_sector info)) ∧
  (∀ (mean_round2 : list float64 → float64) (df : list ScoredRecord),
     NoDup (group <$> get_sector_analysis mean_round2 df) ∧
     (∀ s, s ∈ group <$> get_sector_analysis mean_round2 df ↔
           ∃ r, r ∈ df ∧ sector (base r) = Some s) ∧
     Forall (λ g,
       stock_count g
       = length (filter (λ r, sector (base r) = Some (group g)) df) ∧
       (0 < stock_count g)%nat ∧
       avg_score g
       = mean_round2
           ((λ r, Finite (overall_score r))
              <$> filter (λ r, sector (base r) = Some (group g)) df))
       (get_sector_analysis mean_round2 df) ∧
     StronglySorted (λ a b, precedes (avg_score b) (avg_score a) = false)
       (get_sector_analysis mean_round2 df) ∧
     StronglySorted (λ a b,
       ∀ x y, avg_score a = Finite x → avg_score b = Finite y → y <= x)
       (get_sector_analysis mean_round2 df)).
Proof.
  split.
  - intros name info hist r. unfold Fetcher.build_record.
    destruct hist as [|b hist]; [done|].
    destruct (last (b :: hist)); [|done]. by intros [= <-].
  - intros mean_round2 df. split; [|split; [|split; [|split]]].
    + rewrite group_get_sector_analysis. apply NoDup_group_keys.
    + intros s. rewrite group_get_sector_analysis, elem_of_group_keys.
      rewrite list_elem_of_fmap.
      split; [intros (r & Hs & Hr)|intros (r & Hr & Hs)]; eauto.
    + apply get_sector_analysis_rows.
    + apply (sort_desc_sorted avg_score).
    + eapply (StronglySorted_weaken (λ _, True));
        [|by apply Forall_true|apply (sort_desc_sorted avg_score)].
      intros a b _ _ Hab x y Hx Hy.
      unfold desc in Hab. rewrite Hx, Hy in Hab.
      by apply precedes_finite.
Qed.

Lemma get_sector_analysis_groups_witness :
  Fetcher.build_record "TCS" Examples.no_info Examples.one_bar
  = Some (Examples.unknown_tcs) ∧
  sector Examples.unknown_tcs = Some "Unknown" ∧
  group <$> get_sector_analysis double_mean_round2 Examples.fetched_scored
  = [ "Technology"; "Unknown" ]%string ∧
  stock_count
    <$> get_sector_analysis double_mean_round2 Examples.fetched_scored
  = [ 1; 2 ]%nat ∧
  NoDup (group
           <$> get_sector_analysis double_mean_round2 Examples.fetched_scored).
Proof.
  assert (Fetcher.build_record "TCS" Examples.no_info Examples.one_bar
          = Some (Examples.unknown_tcs)) as H by (by vm_compute).
  split; [exact H|].
  split; [exact (proj1 get_sector_analysis_groups _ _ _ _ H)|].
  split; [by vm_compute|]. split; [by vm_compute|].
  exact (proj1 (proj2 get_sector_analysis_groups double_mean_round2
                  Examples.fetched_scored)).
Defined.

(** C2, as the claim has it, fails: a row whose sector is missing is put
    in no group.  The fetcher builds such a row when the provider sends
    the key ['sector'] with the value [None]; in a frame of that row and
    of a row of the sector "Technology", the table has the one row
    "Technology", with the count 1. *)
Lemma get_sector_analysis_missing_counterexample :
  Fetcher.build_record "TCS" Examples.null_sector Examples.one_bar
  = Some Examples.no_sector_tcs ∧
  sector Examples.no_sector_tcs = None ∧
  base <$> Examples.missing_sector
  = [ Examples.no_sector_tcs;
      Examples.stock "INFY" 100 (Finite 12) "Technology" ] ∧
  (∀ mean_round2 : list float64 → float64,
     group <$> get_sector_analysis mean_round2 Examples.missing_sector
     = [ "Technology" ]%string ∧
     stock_count <$> get_sector_analysis mean_round2 Examples.missing_sector
     = [ 1%nat ]) ∧
  ¬ (∀ (mean_round2 : list float64 → float64) (df : list ScoredRecord)
       (r : ScoredRecord),
       r ∈ df → sector (base r) = None →
       ("Unknown" : string)
         ∈ group <$> get_sector_analysis mean_round2 df).
Proof.
  split; [by vm_compute|]. split; [done|]. split; [done|].
  assert (∀ mean_round2 : list float64 → float64,
            group <$> get_sector_analysis mean_round2 Examples.missing_sector
            = [ "Technology" ]%string) as Hgroups by done.
  split.
  - intros mean_round2. split; [apply Hgroups|].
    pose proof (get_sector_analysis_rows mean_round2 Examples.missing_sector)
      as Hrows.
    pose proof (Hgroups mean_round2) as Hg.
    destruct (get_sector_analysis mean_round2 Examples.missing_sector)
      as [|g [|g' l]]; [done| |done].
    injection Hg as Hg. apply Forall_cons in Hrows as [(Hc & _) _].
    rewrite Hg in Hc. cbn [fmap list_fmap]. by rewrite Hc.
  - intros Hall.
    specialize (Hall double_mean_round2 Examples.missing_sector
                  (score_row (base <$> Examples.missing_sector)
                     Examples.no_sector_tcs)).
    rewrite Hgroups in Hall.
    assert (("Unknown" : string) ∈ [ "Technology"%string ]) as Hin.
    { apply Hall; [apply list_elem_of_here|done]. }
    apply list_elem_of_singleton in Hin. discriminate Hin.
Qed.

End SectorAnalysis.

(** * Further properties of the scoring engine *)

Section Buckets.

Import Pandas Analyzer Rows.

Local Open Scope Q_scope.

(** X1. For every row, [calculate_momentum_score] gives 5 when the
    momentum is NaN, 10 above 20, 8 above 10 up to 20, 6 above 0 up to 10,
    4 above -10 up to 0, and 2 at -10 or below: the upper end of each band
    belongs to the band. *)
Theorem calculate_momentum_score_buckets (df : list StockRecord) :
  Forall2 (λ r s,
    match momentum_30d r with
    | NaN => s = 5%Z
    | PosInf => s = 10%Z
    | NegInf => s = 2%Z
    | Finite q =>
        (20 < q → s = 10%Z) ∧
        (10 < q ∧ q <= 20 → s = 8%Z) ∧
        (0 < q ∧ q <= 10 → s = 6%Z) ∧
        (-10 < q ∧ q <= 0 → s = 4%Z) ∧
        (q <= -10 → s = 2%Z)
    end) df (calculate_momentum_score df).
Proof.
  unfold calculate_momentum_score. rewrite <- list_fmap_compose.
  apply Forall2_fmap_r, Forall_Forall2_diag, Forall_forall.
  intros r _. cbn. destruct (momentum_30d r) as [q| | |]; try done.
  unfold momentum_bucket, fgt, of_Z, inject_Z; cbn.
  compare_cases; cbn; repeat split; intros; first [done | lra].
Qed.

Lemma calculate_momentum_score_buckets_witness :
  ∃ s, calculate_momentum_score [Examples.star] = [s] ∧ s = 10%Z.
Proof.
  pose proof (calculate_momentum_score_buckets [Examples.star]) as H.
  apply Forall2_cons_inv_l in H as (s & k & Hs & Hk & Heq).
  apply Forall2_nil_inv_l in Hk as ->.
  exists s. split; [exact Heq|].
  apply Hs. reflexivity.
Defined.

(** X2. Lower is better among positive PE ratios, and a PE ratio that is
    zero, negative or NaN scores below every positive one. *)
Theorem pe_bucket_antitone :
  (∀ a b : Q, 0 < a → a <= b →
     (pe_bucket (Finite b) ≤ pe_bucket (Finite a))%Z) ∧
  (∀ (pe : float64) (b : Q),
     fle pe (of_Z 0) = true ∨ pe = NaN → 0 < b →
     (pe_bucket pe < pe_bucket (Finite b))%Z).
Proof.
  split.
  - intros a b Ha Hab. unfold pe_bucket, of_Z, inject_Z; cbn.
    compare_cases; cbn; first [lia | lra].
  - intros pe b Hpe Hb.
    assert (pe_bucket pe = 1%Z) as ->.
    { unfold pe_bucket. destruct Hpe as [->| ->]; [done|by cbn]. }
    unfold pe_bucket, of_Z, inject_Z; cbn.
    compare_cases; cbn; first [lia | lra].
Qed.

Lemma pe_bucket_antitone_witness :
  0 < 12 ∧ 12 <= 30 ∧
  (pe_bucket (Finite 30) ≤ pe_bucket (Finite 12))%Z.
Proof.
  assert (0 < 12) as H1 by lra. assert (12 <= 30) as H2 by lra.
  split; [exact H1|]. split; [exact H2|].
  exact (proj1 pe_bucket_antitone 12 30 H1 H2).
Defined.

(** X3. A higher momentum never scores lower. *)
Theorem momentum_bucket_monotone (a b : float64) :
  fle a b = true → (momentum_bucket a ≤ momentum_bucket b)%Z.
Proof.
  destruct a as [x| | |], b as [y| | |]; cbn; try done.
  - rewrite Qle_bool_iff. intros Hxy.
    unfold momentum_bucket, fgt, of_Z, inject_Z; cbn.
    compare_cases; cbn; first [lia | lra].
  - intros _. unfold momentum_bucket, fgt, of_Z, inject_Z; cbn.
    compare_cases; cbn; lia.
  - intros _. unfold momentum_bucket, fgt, of_Z, inject_Z; cbn.
    compare_cases; cbn; lia.
Qed.

Lemma momentum_bucket_monotone_witness :
  fle (Finite (-3)) (Finite 12) = true ∧
  (momentum_bucket (Finite (-3)) ≤ momentum_bucket (Finite 12))%Z.
Proof.
  split; [reflexivity|].
  exact (momentum_bucket_monotone (Finite (-3)) (Finite 12) eq_refl).
Defined.






End Buckets.

(** ** The volume score within a frame *)

Section VolumeRank.

Import Pandas Analyzer Rows.

Local Open Scope Q_scope.

Lemma inject_nat_nonneg (n : nat) : 0 <= inject_Z (Z.of_nat n).
Proof. change 0 with (inject_Z 0). rewrite <- Zle_Qle. lia. Qed.

Lemma inject_nat_le (a b : nat) :
  (a ≤ b)%nat → inject_Z (Z.of_nat a) <= inject_Z (Z.of_nat b).
Proof. intros H. rewrite <- Zle_Qle. lia. Qed.

Lemma inject_nat_plus (a b : nat) :
  inject_Z (Z.of_nat (a + b)) == inject_Z (Z.of_nat a) + inject_Z (Z.of_nat b).
Proof. by rewrite Nat2Z.inj_add, inject_Z_plus. Qed.

(** The values below [x] and the values equal to [x] are all below a
    larger [y]. *)
Lemma count_below (col : list Z) (x y : Z) :
  (x < y)%Z →
  (length (filter (λ z, (z < x)%Z) col) + length (filter (λ z, z = x) col)
   ≤ length (filter (λ z, (z < y)%Z) col))%nat.
Proof.
  intros Hxy. induction col as [|z col IH]; [done|].
  rewrite !filter_cons. repeat case_decide; cbn; lia.
Qed.

Lemma count_equal_pos (col : list Z) (x : Z) :
  x ∈ col → (1 ≤ length (filter (λ z, z = x) col))%nat.
Proof.
  intros Hx.
  assert (x ∈ filter (λ z, z = x) col) as Hin by (by apply list_elem_of_filter).
  destruct (filter (λ z, z = x) col); [by apply elem_of_nil in Hin|cbn; lia].
Qed.

Lemma rank_average_monotone (col : list Z) (x y : Z) :
  (x ≤ y)%Z → rank_average col x <= rank_average col y.
Proof.
  intros Hxy. destruct (decide (x = y)) as [->|Hne]; [apply Qle_refl|].
  pose proof (count_below col x y ltac:(lia)) as H.
  apply inject_nat_le in H. rewrite inject_nat_plus in H.
  unfold rank_average.
  pose proof (inject_nat_nonneg (length (filter (λ z, z = x) col))).
  pose proof (inject_nat_nonneg (length (filter (λ z, z = y) col))).
  unfold Qdiv. change (/ 2) with (1 # 2). lra.
Qed.

Lemma rank_average_ge_1 (col : list Z) (x : Z) :
  x ∈ col → 1 <= rank_average col x.
Proof.
  intros Hx. apply count_equal_pos, (inject_nat_le 1) in Hx.
  change (inject_Z (Z.of_nat 1)) with 1 in Hx.
  pose proof (inject_nat_nonneg (length (filter (λ z, (z < x)%Z) col))).
  unfold rank_average, Qdiv. change (/ 2) with (1 # 2). lra.
Qed.

Lemma volume_bucket_monotone (p q : Q) :
  p <= q → (volume_bucket p ≤ volume_bucket q)%Z.
Proof.
  intros Hpq. unfold volume_bucket. compare_cases; first [lia | lra].
Qed.

Lemma volume_score_of_monotone (df : list StockRecord) (r1 r2 : StockRecord) :
  (volume r1 ≤ volume r2)%Z →
  (volume_score_of df r1 ≤ volume_score_of df r2)%Z.
Proof.
  intros Hv. unfold volume_score_of. case_match; [done|].
  apply volume_bucket_monotone, Qmult_le_compat_r.
  - by apply rank_average_monotone.
  - apply Qinv_le_0_compat, inject_nat_nonneg.
Qed.

Lemma calculate_volume_score_lookup (df : list StockRecord) (i : nat)
    (r : StockRecord) (s : Z) :
  df !! i = Some r → calculate_volume_score df !! i = Some s →
  s = volume_score_of df r.
Proof.
  intros Hr. rewrite calculate_volume_score_rows, list_lookup_fmap, Hr.
  by intros [= <-].
Qed.

(** X5. Within a frame, a row with a higher volume never has a lower
    volume score, and rows of equal volume have equal scores. *)
Theorem calculate_volume_score_monotone (df : list StockRecord)
    (i j : nat) (r1 r2 : StockRecord) (s1 s2 : Z) :
  df !! i = Some r1 → df !! j = Some r2 →
  calculate_volume_score df !! i = Some s1 →
  calculate_volume_score df !! j = Some s2 →
  ((volume r1 ≤ volume r2)%Z → (s1 ≤ s2)%Z) ∧
  (volume r1 = volume r2 → s1 = s2).
Proof.
  intros Hr1 Hr2 Hs1 Hs2.
  apply (calculate_volume_score_lookup _ _ _ _ Hr1) in Hs1 as ->.
  apply (calculate_volume_score_lookup _ _ _ _ Hr2) in Hs2 as ->.
  split.
  - apply volume_score_of_monotone.
  - intros Heq. apply Z.le_antisymm; apply volume_score_of_monotone; lia.
Qed.

Lemma calculate_volume_score_monotone_witness :
  calculate_volume_score Examples.three_volumes !! 0%nat = Some 8%Z ∧
  calculate_volume_score Examples.three_volumes !! 2%nat = Some 10%Z ∧
  (8 ≤ 10)%Z.
Proof.
  split; [reflexivity|]. split; [reflexivity|].
  refine (proj1 (calculate_volume_score_monotone Examples.three_volumes
                   0 2 _ _ 8 10 eq_refl eq_refl eq_refl eq_refl) _).
  cbn. lia.
Defined.

End VolumeRank.

(** ** Edge cases of the volume score *)

Section VolumeEdges.

Import Pandas Analyzer Rows.

Local Open Scope Q_scope.

Lemma filter_Forall {A} (P : A → Prop) `{∀ x, Decision (P x)} (l : list A) :
  Forall P l → filter P l = l.
Proof.
  induction 1 as [|x l Hx _ IH]; [done|].
  rewrite filter_cons_True by done. by f_equal.
Qed.

Lemma filter_Forall_not {A} (P : A → Prop) `{∀ x, Decision (P x)}
    (l : list A) :
  Forall (λ x, ¬ P x) l → filter P l = [].
Proof.
  induction 1 as [|x l Hx _ IH]; [done|].
  by rewrite filter_cons_False.
Qed.

Lemma sum_nonneg (col : list Z) :
  Forall (λ v, (0 ≤ v)%Z) col → (0 ≤ foldr Z.add 0 col)%Z.
Proof. induction 1 as [|v col Hv _ IH]; cbn; lia. Qed.

Lemma sum_zero_all_zero (col : list Z) :
  Forall (λ v, (0 ≤ v)%Z) col → foldr Z.add 0%Z col = 0%Z →
  Forall (λ v, v = 0%Z) col.
Proof.
  induction 1 as [|v col Hv Hcol IH]; cbn; [done|].
  intros Hsum. pose proof (sum_nonneg col Hcol).
  constructor; [lia|]. apply IH. lia.
Qed.

Lemma volume_bucket_not_5 (p : Q) : volume_bucket p ≠ 5%Z.
Proof. unfold volume_bucket. by repeat case_match. Qed.

(** X6. When no volume is negative and the volumes add up within the
    range of [int64], so that their sum does not wrap around, the neutral
    score 5 is what every row of a frame gets exactly when every volume of
    the frame is 0. *)
Theorem calculate_volume_score_neutral (df : list StockRecord) :
  df ≠ [] →
  Forall (λ r, (0 ≤ volume r)%Z) df →
  int64 (foldr Z.add 0%Z (volume <$> df)) →
  Forall (λ s, s = 5%Z) (calculate_volume_score df) ↔
  Forall (λ r, volume r = 0%Z) df.
Proof.
  intros Hne Hpos Hfit.
  assert (sum_int64 (volume <$> df) = foldr Z.add 0%Z (volume <$> df))
    as Hwrap by (by apply wrap64_small).
  split.
  - intros Hall.
    destruct (decide (foldr Z.add 0%Z (volume <$> df) = 0%Z)) as [Hsum|Hsum].
    + apply sum_zero_all_zero in Hsum; [|by apply Forall_fmap].
      by apply Forall_fmap in Hsum.
    + exfalso. destruct df as [|r df]; [done|].
      rewrite calculate_volume_score_rows in Hall.
      apply Forall_cons in Hall as [Hr _].
      unfold volume_score_of in Hr. rewrite Hwrap in Hr.
      apply Z.eqb_neq in Hsum. rewrite Hsum in Hr.
      by apply volume_bucket_not_5 in Hr.
  - intros Hzero. unfold calculate_volume_score. rewrite Hwrap.
    rewrite (equal_volumes_column df 0 Hzero), sum_replicate.
    assert ((Z.of_nat (length df) * 0 =? 0)%Z = true) as -> by lia.
    by apply Forall_replicate.
Qed.

Lemma calculate_volume_score_neutral_witness :
  Examples.three_volumes ≠ [] ∧
  Forall (λ r, (0 ≤ volume r)%Z) Examples.three_volumes ∧
  int64 (foldr Z.add 0%Z (volume <$> Examples.three_volumes)) ∧
  ¬ Forall (λ s, s = 5%Z) (calculate_volume_score Examples.three_volumes).
Proof.
  assert (Examples.three_volumes ≠ []) as H1 by discriminate.
  assert (Forall (λ r, (0 ≤ volume r)%Z) Examples.three_volumes) as H2
    by (repeat constructor; cbn; lia).
  assert (int64 (foldr Z.add 0%Z (volume <$> Examples.three_volumes))) as H3
    by (unfold int64; cbn; lia).
  split; [exact H1|]. split; [exact H2|]. split; [exact H3|].
  rewrite (calculate_volume_score_neutral Examples.three_volumes H1 H2 H3).
  intros H. apply Forall_cons in H as [H _]. discriminate H.
Defined.

(** X7. When no volume is negative and the volumes add up within the
    range of [int64], the row whose volume is positive and above that of
    every other row scores 10. *)
Theorem calculate_volume_score_top (l1 l2 : list StockRecord)
    (r : StockRecord) :
  (0 < volume r)%Z →
  Forall (λ r', (0 ≤ volume r' < volume r)%Z) (l1 ++ l2) →
  int64 (foldr Z.add 0%Z (volume <$> l1 ++ r :: l2)) →
  calculate_volume_score (l1 ++ r :: l2) !! length l1 = Some 10%Z.
Proof.
  intros Hr Hothers Hfit.
  apply Forall_app in Hothers as [H1 H2].
  rewrite calculate_volume_score_rows, list_lookup_fmap.
  rewrite list_lookup_middle by done. cbn. f_equal.
  unfold volume_score_of.
  assert (0 < foldr Z.add 0 (volume <$> l1 ++ r :: l2))%Z as Hsum.
  { rewrite fmap_app, foldr_app. cbn.
    assert (∀ l a, Forall (λ r', (0 ≤ volume r' < volume r)%Z) l →
              (a ≤ foldr Z.add a (volume <$> l))%Z) as Hacc.
    { intros l a. induction 1 as [|x l Hx _ IH]; cbn; lia. }
    pose proof (Hacc l2 0%Z H2).
    pose proof (Hacc l1 (volume r + foldr Z.add 0 (volume <$> l2))%Z H1).
    lia. }
  assert ((sum_int64 (volume <$> l1 ++ r :: l2) =? 0)%Z = false) as ->
    by (unfold sum_int64; rewrite wrap64_small by done; lia).
  unfold rank_average.
  assert (filter (λ z, (z < volume r)%Z) (volume <$> l1 ++ r :: l2)
          = volume <$> l1 ++ l2) as ->.
  { rewrite !fmap_app, fmap_cons, !filter_app, filter_cons_False by lia.
    rewrite !filter_Forall; [done|..]; apply Forall_fmap;
      (eapply Forall_impl; [eassumption|]); cbn; lia. }
  assert (filter (λ z, z = volume r) (volume <$> l1 ++ r :: l2)
          = [volume r]) as ->.
  { rewrite !fmap_app, fmap_cons, !filter_app, filter_cons_True by done.
    rewrite !filter_Forall_not; [done|..]; apply Forall_fmap;
      (eapply Forall_impl; [eassumption|]); cbn; lia. }
  rewrite !length_fmap, !length_app. cbn [length].
  set (a := (length l1 + length l2)%nat).
  replace (length l1 + S (length l2))%nat with (S a) by lia.
  assert (inject_Z (Z.of_nat (S a)) == inject_Z (Z.of_nat a) + 1) as HS.
  { replace (S a) with (a + 1)%nat by lia. by rewrite inject_nat_plus. }
  pose proof (inject_nat_nonneg a) as Ha. clearbody a.
  unfold volume_bucket.
  assert (Qle_bool 0.8
            ((inject_Z (Z.of_nat a) + (inject_Z (Z.of_nat 1) + 1) / 2)
             / inject_Z (Z.of_nat (S a))) = true) as ->; [|done].
  apply Qle_bool_iff, Qle_shift_div_l; [lra|].
  change (inject_Z (Z.of_nat 1)) with 1. rewrite HS.
  unfold Qdiv. change (/ 2) with (1 # 2). lra.
Qed.

Lemma calculate_volume_score_top_witness :
  (0 < 500)%Z ∧
  int64 (foldr Z.add 0%Z (volume <$> Examples.three_volumes)) ∧
  calculate_volume_score Examples.three_volumes !! 2%nat = Some 10%Z.
Proof.
  assert (0 < 500)%Z as H by lia. split; [exact H|].
  assert (int64 (foldr Z.add 0%Z (volume <$> Examples.three_volumes))) as H3
    by (unfold int64; cbn; lia).
  split; [exact H3|].
  refine (calculate_volume_score_top
            [ Examples.stock "A" 300 (Finite 10) "Energy";
              Examples.stock "B" 100 (Finite 10) "Energy" ] []
            (Examples.stock "C" 500 (Finite 10) "Energy") H _ H3).
  repeat constructor; cbn; lia.
Defined.

(** X8. In a frame of at most five rows whose volumes do not sum to 0,
    every row scores 4 or more: the lowest percentile is one over the
    number of rows, which is at least 0.2. *)
Theorem calculate_volume_score_small_frame (df : list StockRecord) :
  (length df ≤ 5)%nat →
  foldr Z.add 0%Z (volume <$> df) ≠ 0%Z →
  Forall (λ s, (4 ≤ s)%Z) (calculate_volume_score df).
Proof.
  intros Hlen Hsum. rewrite calculate_volume_score_rows.
  apply Forall_fmap, Forall_forall. intros r Hr. cbn.
  unfold volume_score_of.
  destruct (sum_int64 (volume <$> df) =? 0)%Z; [lia|].
  assert (volume r ∈ volume <$> df) as Hin
    by (apply list_elem_of_fmap; eauto).
  apply rank_average_ge_1 in Hin.
  rewrite length_fmap.
  assert (1 <= inject_Z (Z.of_nat (length df))) as Hlo.
  { change 1 with (inject_Z (Z.of_nat 1)). apply inject_nat_le.
    destruct df; [by apply elem_of_nil in Hr|cbn; lia]. }
  assert (inject_Z (Z.of_nat (length df)) <= 5) as Hhi.
  { change 5 with (inject_Z (Z.of_nat 5)). by apply inject_nat_le. }
  assert (0.2 <= rank_average (volume <$> df) (volume r)
                 / inject_Z (Z.of_nat (length df))) as Hp
    by (apply Qle_shift_div_l; lra).
  revert Hp. generalize (rank_average (volume <$> df) (volume r)
                         / inject_Z (Z.of_nat (length df))).
  intros p Hp. unfold volume_bucket. compare_cases; first [lia | lra].
Qed.

Lemma calculate_volume_score_small_frame_witness :
  (length Examples.three_volumes ≤ 5)%nat ∧
  foldr Z.add 0%Z (volume <$> Examples.three_volumes) ≠ 0%Z ∧
  Forall (λ s, (4 ≤ s)%Z) (calculate_volume_score Examples.three_volumes).
Proof.
  assert (length Examples.three_volumes ≤ 5)%nat as H1 by (cbn; lia).
  assert (foldr Z.add 0%Z (volume <$> Examples.three_volumes) ≠ 0%Z) as H2
    by (cbn; lia).
  split; [exact H1|]. split; [exact H2|].
  exact (calculate_volume_score_small_frame Examples.three_volumes H1 H2).
Defined.

End VolumeEdges.

(** ** The weights of the overall score *)

Section Weights.

Import Pandas Analyzer Rows.

Local Open Scope Q_scope.

(** The scoring step under any four weights. *)
Lemma calculate_overall_score_with (self : StockAnalyzer)
    (w_pe w_vol w_mom w_prof : Q) (df : list StockRecord) :
  scoring_weights self !! "pe_score" = Some w_pe →
  scoring_weights self !! "volume_score" = Some w_vol →
  scoring_weights self !! "momentum_score" = Some w_mom →
  scoring_weights self !! "profit_score" = Some w_prof →
  calculate_overall_score self df
  = Ok ((λ r,
      {| base := r;
         pe_score := pe_bucket (pe_ratio r);
         volume_score := volume_score_of df r;
         momentum_score := momentum_bucket (momentum_30d r);
         profit_score := profit_bucket r;
         overall_score :=
           Qround2 (inject_Z (pe_bucket (pe_ratio r)) * w_pe
                    + inject_Z (volume_score_of df r) * w_vol
                    + inject_Z (momentum_bucket (momentum_30d r)) * w_mom
                    + inject_Z (profit_bucket r) * w_prof) |}) <$> df).
Proof.
  intros H1 H2 H3 H4. unfold calculate_overall_score, weight.
  rewrite H1, H2, H3, H4. cbn [bind]. f_equal.
  rewrite calculate_volume_score_rows.
  unfold calculate_pe_score, calculate_momentum_score, calculate_profit_score,
    scale.
  rewrite <- !list_fmap_compose, !zip_with_fmap_same.
  rewrite <- list_fmap_compose.
  apply (with_scores_fmap (pe_bucket ∘ pe_ratio) (volume_score_of df)
           (momentum_bucket ∘ momentum_30d) profit_bucket).
Qed.

(** X9. [calculate_overall_score] reads four keys of [scoring_weights],
    in the order [pe_score], [volume_score], [momentum_score],
    [profit_score]: the first one that is missing is the [KeyError] it
    raises; when the four are there it raises nothing, whatever the
    weights are, and the raw columns and the four sub-scores of its result
    do not depend on them. *)
Theorem calculate_overall_score_missing_weight
    (self : StockAnalyzer) (df : list StockRecord) :
  (scoring_weights self !! "pe_score" = None →
   calculate_overall_score self df = Raise (KeyError "pe_score")) ∧
  (is_Some (scoring_weights self !! "pe_score") →
   scoring_weights self !! "volume_score" = None →
   calculate_overall_score self df = Raise (KeyError "volume_score")) ∧
  (is_Some (scoring_weights self !! "pe_score") →
   is_Some (scoring_weights self !! "volume_score") →
   scoring_weights self !! "momentum_score" = None →
   calculate_overall_score self df = Raise (KeyError "momentum_score")) ∧
  (is_Some (scoring_weights self !! "pe_score") →
   is_Some (scoring_weights self !! "volume_score") →
   is_Some (scoring_weights self !! "momentum_score") →
   scoring_weights self !! "profit_score" = None →
   calculate_overall_score self df = Raise (KeyError "profit_score")) ∧
  (is_Some (scoring_weights self !! "pe_score") →
   is_Some (scoring_weights self !! "volume_score") →
   is_Some (scoring_weights self !! "momentum_score") →
   is_Some (scoring_weights self !! "profit_score") →
   ∃ sc, calculate_overall_score self df = Ok sc ∧
         base <$> sc = df ∧
         pe_score <$> sc = calculate_pe_score df ∧
         volume_score <$> sc = calculate_volume_score df ∧
         momentum_score <$> sc = calculate_momentum_score df ∧
         profit_score <$> sc = calculate_profit_score df).
Proof.
  unfold calculate_overall_score at 1 2 3 4. unfold weight.
  repeat split.
  - by intros ->.
  - by intros [? ->] ->.
  - by intros [? ->] [? ->] ->.
  - by intros [? ->] [? ->] [? ->] ->.
  - intros [w1 H1] [w2 H2] [w3 H3] [w4 H4].
    rewrite (calculate_overall_score_with self w1 w2 w3 w4 df H1 H2 H3 H4).
    eexists. split; [done|].
    rewrite calculate_volume_score_rows.
    unfold calculate_pe_score, calculate_momentum_score,
      calculate_profit_score.
    rewrite <- !list_fmap_compose. repeat split; try done.
    apply list_fmap_id.
Qed.

Lemma calculate_overall_score_missing_weight_witness :
  ({[ "pe_score" := 0.5 ]} : gmap string Q) !! "volume_score" = None ∧
  calculate_overall_score {| scoring_weights := {[ "pe_score" := 0.5 ]} |}
    Examples.three_volumes
  = Raise (KeyError "volume_score").
Proof.
  split; [reflexivity|].
  destruct (calculate_overall_score_missing_weight
              {| scoring_weights := {[ "pe_score" := 0.5 ]} |}
              Examples.three_volumes) as (_ & H & _).
  apply H; [by eexists|reflexivity].
Defined.

(** X10. With the weights of [__init__] the rounding to two decimals
    never changes the weighted sum, and every overall score is a whole
    multiple of 0.05. *)
Theorem overall_score_step (df : list StockRecord) :
  ∃ sc, calculate_overall_score init df = Ok sc ∧
        Forall (λ r,
          overall_score r
          == inject_Z (pe_score r) * 0.25 + inject_Z (volume_score r) * 0.20
             + inject_Z (momentum_score r) * 0.25
             + inject_Z (profit_score r) * 0.30 ∧
          overall_score r
          == inject_Z (5 * pe_score r + 4 * volume_score r
                       + 5 * momentum_score r + 6 * profit_score r) * 0.05)
          sc.
Proof.
  exists (score_row df <$> df).
  split; [apply calculate_overall_score_rows|].
  apply Forall_fmap, Forall_forall. intros r _. cbn.
  rewrite Qround2_weighted_sum. unfold weighted_sum.
  split; [done|].
  rewrite !inject_Z_plus, !inject_Z_mult.
  change (inject_Z 5) with 5. change (inject_Z 4) with 4.
  change (inject_Z 6) with 6. lra.
Qed.

(** X11. A row that is at least as good as another on each of the four
    sub-scores has an overall score that is at least as high. *)
Theorem overall_score_dominance (df1 df2 : list StockRecord)
    (sc1 sc2 : list ScoredRecord) (r1 r2 : ScoredRecord) :
  calculate_overall_score init df1 = Ok sc1 →
  calculate_overall_score init df2 = Ok sc2 →
  r1 ∈ sc1 → r2 ∈ sc2 →
  (pe_score r1 ≤ pe_score r2)%Z →
  (volume_score r1 ≤ volume_score r2)%Z →
  (momentum_score r1 ≤ momentum_score r2)%Z →
  (profit_score r1 ≤ profit_score r2)%Z →
  overall_score r1 <= overall_score r2.
Proof.
  rewrite !calculate_overall_score_rows. intros [= <-] [= <-].
  intros (x1 & -> & _)%list_elem_of_fmap (x2 & -> & _)%list_elem_of_fmap.
  cbn. rewrite !Qround2_weighted_sum. unfold weighted_sum.
  rewrite !Zle_Qle. lra.
Qed.

Lemma overall_score_dominance_witness :
  ∃ r1 r2,
    r1 ∈ score_row Examples.three_volumes <$> Examples.three_volumes ∧
    r2 ∈ score_row [Examples.star] <$> [Examples.star] ∧
    overall_score r1 <= overall_score r2.
Proof.
  exists (score_row Examples.three_volumes
            (Examples.stock "A" 300 (Finite 10) "Energy")),
         (score_row [Examples.star] Examples.star).
  assert (score_row Examples.three_volumes
            (Examples.stock "A" 300 (Finite 10) "Energy")
          ∈ score_row Examples.three_volumes <$> Examples.three_volumes)
    as H1 by apply list_elem_of_here.
  assert (score_row [Examples.star] Examples.star
          ∈ score_row [Examples.star] <$> [Examples.star])
    as H2 by apply list_elem_of_here.
  split; [exact H1|]. split; [exact H2|].
  apply (overall_score_dominance Examples.three_volumes [Examples.star]
           _ _ _ _ (calculate_overall_score_rows _)
           (calculate_overall_score_rows _) H1 H2);
    apply Z.leb_le; reflexivity.
Defined.

End Weights.

(** * Further properties of the views *)

Section TopStocksBounds.

Import Pandas Analyzer Rows.

(** X12. For a numeric metric, [get_top_stocks] returns the empty frame
    when [top_n] is 0 or negative, a rearrangement of the whole frame when
    [top_n] is its number of rows or more, and for a smaller [top_n] the
    first rows of what it returns for a larger one. *)
Theorem get_top_stocks_bounds (df : list ScoredRecord) (metric : string)
    (key : ScoredRecord → float64) :
  assoc metric schema = Some (NumCol key) →
  (∀ n : Z, (n ≤ 0)%Z → get_top_stocks df metric n = Ok []) ∧
  (∀ n : Z, (Z.of_nat (length df) ≤ n)%Z →
     ∃ top, get_top_stocks df metric n = Ok top ∧ top ≡ₚ df) ∧
  (∀ n m : Z, (n ≤ m)%Z →
     ∃ top_n top_m,
       get_top_stocks df metric n = Ok top_n ∧
       get_top_stocks df metric m = Ok top_m ∧
       top_n `prefix_of` top_m).
Proof.
  intros Hcol. unfold get_top_stocks. rewrite Hcol. repeat split.
  - intros n Hn. unfold nlargest.
    by replace (Z.to_nat n) with 0%nat by lia.
  - intros n Hn. eexists. split; [done|]. unfold nlargest.
    rewrite take_ge; [apply sort_desc_Permutation|].
    rewrite sort_desc_length. lia.
  - intros n m Hnm. eexists _, _. split; [done|]. split; [done|].
    unfold nlargest.
    replace (take (Z.to_nat n) (sort_desc key df))
      with (take (Z.to_nat n) (take (Z.to_nat m) (sort_desc key df))).
    + apply prefix_take.
    + rewrite take_take. f_equal. lia.
Qed.

Lemma get_top_stocks_bounds_witness :
  assoc "pe_ratio" schema = Some (NumCol (λ r, pe_ratio (base r))) ∧
  get_top_stocks Examples.five_rows "pe_ratio" (-2) = Ok [].
Proof.
  split; [reflexivity|].
  apply (proj1 (get_top_stocks_bounds Examples.five_rows "pe_ratio"
                  (λ r, pe_ratio (base r)) eq_refl)).
  lia.
Defined.

End TopStocksBounds.

Section CriteriaAlgebra.

Import Pandas Analyzer Rows.

Local Open Scope Q_scope.

(** X13. [get_stocks_by_criteria] only removes rows, keeping the others in
    their order, and applying the same criteria a second time removes
    nothing more. *)
Theorem get_stocks_by_criteria_idempotent (df : list ScoredRecord)
    (criteria : gmap string Q) :
  get_stocks_by_criteria df criteria `sublist_of` df ∧
  get_stocks_by_criteria (get_stocks_by_criteria df criteria) criteria
  = get_stocks_by_criteria df criteria.
Proof.
  rewrite !get_stocks_by_criteria_filter. split; [apply sublist_filter|].
  rewrite list_filter_filter. apply list_filter_iff. tauto.
Qed.

Lemma passes_union (c1 c2 : gmap string Q) (key : string)
    (keep : Q → ScoredRecord → bool) (r : ScoredRecord) :
  c1 ##ₘ c2 →
  passes (c1 ∪ c2) key keep r
  = passes c1 key keep r && passes c2 key keep r.
Proof.
  intros Hdisj. unfold passes.
  destruct (c1 !! key) as [a|] eqn:E1.
  - rewrite (lookup_union_Some_l _ _ _ _ E1).
    rewrite (map_disjoint_Some_l _ _ _ _ Hdisj E1). by rewrite andb_true_r.
  - by rewrite (lookup_union_r _ _ _ E1).
Qed.

(** X14. Two sets of criteria can be applied in either order; when they
    share no key, applying one after the other is applying their union. *)
Theorem get_stocks_by_criteria_compose (df : list ScoredRecord)
    (c1 c2 : gmap string Q) :
  get_stocks_by_criteria (get_stocks_by_criteria df c1) c2
  = get_stocks_by_criteria (get_stocks_by_criteria df c2) c1 ∧
  (c1 ##ₘ c2 →
   get_stocks_by_criteria (get_stocks_by_criteria df c1) c2
   = get_stocks_by_criteria df (c1 ∪ c2)).
Proof.
  rewrite !get_stocks_by_criteria_filter, !list_filter_filter. split.
  - apply list_filter_iff. tauto.
  - intros Hdisj. apply list_filter_iff. intros r.
    unfold passes_all. rewrite !(passes_union c1 c2) by done.
    rewrite !andb_true_iff. tauto.
Qed.

Lemma get_stocks_by_criteria_compose_witness :
  ({[ "min_pe" := 10 ]} : gmap string Q) ##ₘ {[ "max_pe" := 20 ]} ∧
  get_stocks_by_criteria
    (get_stocks_by_criteria Examples.three_pe {[ "min_pe" := 10 ]})
    {[ "max_pe" := 20 ]}
  = get_stocks_by_criteria Examples.three_pe
      ({[ "min_pe" := 10 ]} ∪ {[ "max_pe" := 20 ]}).
Proof.
  assert (({[ "min_pe" := 10 ]} : gmap string Q) ##ₘ {[ "max_pe" := 20 ]})
    as H by (by apply map_disjoint_singleton_l, lookup_singleton_ne).
  split; [exact H|].
  exact (proj2 (get_stocks_by_criteria_compose Examples.three_pe _ _) H).
Defined.

(** X15. As soon as the criteria have [min_pe] or [max_pe], no row with a
    NaN PE ratio is kept; a positive [min_pe] also removes every row whose
    PE ratio is 0 (the value the fetcher gives to a stock without
    [trailingPE]) or negative. *)
Theorem get_stocks_by_criteria_unusable_pe (df : list ScoredRecord)
    (criteria : gmap string Q) (r : ScoredRecord) :
  r ∈ get_stocks_by_criteria df criteria →
  (is_Some (criteria !! "min_pe") ∨ is_Some (criteria !! "max_pe") →
   pe_ratio (base r) ≠ NaN) ∧
  (∀ c q, criteria !! "min_pe" = Some c → 0 < c →
          pe_ratio (base r) = Finite q → 0 < q).
Proof.
  rewrite get_stocks_by_criteria_filter, list_elem_of_filter.
  rewrite passes_all_meets. intros [(Hmin & Hmax & _) _]. split.
  - intros [[c Hc]|[c Hc]] Hnan.
    + specialize (Hmin c Hc). by rewrite Hnan in Hmin.
    + specialize (Hmax c Hc). by rewrite Hnan in Hmax.
  - intros c q Hc Hpos Hq. specialize (Hmin c Hc).
    rewrite Hq in Hmin. unfold at_least in Hmin. lra.
Qed.

Lemma get_stocks_by_criteria_unusable_pe_witness :
  Examples.scored "B" (Finite 15) 7.2
  ∈ get_stocks_by_criteria Examples.three_pe Examples.pe_10_20 ∧
  pe_ratio (base (Examples.scored "B" (Finite 15) 7.2)) ≠ NaN.
Proof.
  assert (Examples.scored "B" (Finite 15) 7.2
          ∈ get_stocks_by_criteria Examples.three_pe Examples.pe_10_20)
    as H by apply list_elem_of_here.
  split; [exact H|].
  apply (proj1 (get_stocks_by_criteria_unusable_pe _ _ _ H)).
  left. by eexists.
Defined.

End CriteriaAlgebra.

Section SectorTotals.

Import Pandas Analyzer Rows.

Local Open Scope Q_scope.

Lemma sum_list_Permutation (l1 l2 : list nat) :
  l1 ≡ₚ l2 → sum_list l1 = sum_list l2.
Proof. induction 1; cbn; lia. Qed.

(** In a list of keys without repetition, one key at most is the sector of
    a given row, and none when the row has no sector. *)
Lemma sum_indicator (keys : list string) (o : option string) :
  NoDup keys → (∀ s, o = Some s → s ∈ keys) →
  sum_list ((λ k, if decide (o = Some k) then 1 else 0)%nat <$> keys)
  = (if o is Some _ then 1 else 0)%nat.
Proof.
  induction 1 as [|k keys Hk Hkeys IH]; intros Ho.
  - destruct o as [s|]; [|done].
    specialize (Ho s eq_refl). by apply elem_of_nil in Ho.
  - cbn. case_decide as Hok.
    + subst o. rewrite (sum_list_fmap_same 0); [lia|].
      apply Forall_forall. intros k' Hk'. case_decide as E; [|done].
      injection E as ->. done.
    + rewrite IH; [done|]. intros s ->.
      specialize (Ho s eq_refl). apply elem_of_cons in Ho as [->|Hs]; done.
Qed.

Lemma rows_of_cons_length (r : ScoredRecord) (df : list ScoredRecord)
    (k : string) :
  length (rows_of (r :: df) k)
  = ((if decide (sector (base r) = Some k) then 1 else 0)
     + length (rows_of df k))%nat.
Proof. unfold rows_of. rewrite filter_cons. by case_decide. Qed.

Lemma sum_rows_of_cons (keys : list string) (r : ScoredRecord)
    (df : list ScoredRecord) :
  sum_list ((λ k, length (rows_of (r :: df) k)) <$> keys)
  = (sum_list
       ((λ k, if decide (sector (base r) = Some k) then 1 else 0)%nat
          <$> keys)
     + sum_list ((λ k, length (rows_of df k)) <$> keys))%nat.
Proof.
  induction keys as [|k keys IH]; [done|].
  rewrite !fmap_cons. cbn [sum_list]. rewrite IH, rows_of_cons_length.
  unfold id. lia.
Qed.

Lemma sum_rows_of (keys : list string) (df : list ScoredRecord) :
  NoDup keys →
  (∀ r s, r ∈ df → sector (base r) = Some s → s ∈ keys) →
  sum_list ((λ k, length (rows_of df k)) <$> keys)
  = length (filter (λ r, is_Some (sector (base r))) df).
Proof.
  intros Hkeys. induction df as [|r df IH]; intros Hall.
  - cbn. rewrite (sum_list_fmap_same 0); [lia|]. by apply Forall_forall.
  - assert (∀ s, sector (base r) = Some s → s ∈ keys) as Hr.
    { intros s Hs. eapply Hall; [apply list_elem_of_here|done]. }
    assert (∀ r' s, r' ∈ df → sector (base r') = Some s → s ∈ keys) as Hdf.
    { intros r' s Hr' Hs. eapply Hall; [by apply list_elem_of_further|done]. }
    rewrite sum_rows_of_cons, (sum_indicator keys _ Hkeys Hr), (IH Hdf).
    rewrite filter_cons. destruct (sector (base r)) as [s|].
    + by rewrite decide_True by done.
    + by rewrite decide_False by (by intros [? ?]).
Qed.

(** X16. The counts of the sector table add up to the number of rows of
    the frame that have a sector: each of them is counted in one group,
    and in one only, and a row without a sector in none.  In a frame
    where every row has a sector, the counts add up to the number of
    rows. *)
Theorem get_sector_analysis_total
    (mean_round2 : list float64 → float64) (df : list ScoredRecord) :
  sum_list (stock_count <$> get_sector_analysis mean_round2 df)
  = length (filter (λ r, is_Some (sector (base r))) df) ∧
  (Forall (λ r, is_Some (sector (base r))) df →
   sum_list (stock_count <$> get_sector_analysis mean_round2 df)
   = length df).
Proof.
  assert (sum_list (stock_count <$> get_sector_analysis mean_round2 df)
          = length (filter (λ r, is_Some (sector (base r))) df)) as Hsum.
  { rewrite (sum_list_Permutation _
               (stock_count <$> (aggregate mean_round2 df
                  <$> group_keys ((λ r, sector (base r)) <$> df)))).
    - rewrite <- list_fmap_compose.
      rewrite (list_fmap_ext _ (λ k, length (rows_of df k)) _);
        [|intros; apply stock_count_aggregate].
      apply sum_rows_of; [apply NoDup_group_keys|].
      intros r s Hr Hs. apply elem_of_group_keys, list_elem_of_fmap. eauto.
    - by rewrite get_sector_analysis_Permutation. }
  split; [exact Hsum|].
  intros Hall. rewrite Hsum. f_equal.
  clear Hsum. induction Hall as [|r df Hr _ IH]; [done|].
  rewrite filter_cons_True by done. by f_equal.
Qed.

Lemma get_sector_analysis_total_witness :
  Forall (λ r, is_Some (sector (base r))) Examples.fetched_scored ∧
  sum_list (stock_count
              <$> get_sector_analysis double_mean_round2
                    Examples.fetched_scored) = 3%nat.
Proof.
  assert (Forall (λ r, is_Some (sector (base r))) Examples.fetched_scored)
    as H by (repeat constructor; by eexists).
  split; [exact H|].
  exact (proj2 (get_sector_analysis_total double_mean_round2
                  Examples.fetched_scored) H).
Defined.

Lemma rint_lower (z : Q) (a : Z) : inject_Z a <= z → (a ≤ rint z)%Z.
Proof.
  intros Ha. apply Qfloor_resp_le in Ha. rewrite Qfloor_Z in Ha.
  unfold rint. repeat case_match; lia.
Qed.

Lemma rint_upper (z : Q) (b : Z) : z <= inject_Z b → (rint z ≤ b)%Z.
Proof.
  intros Hb. pose proof (Qfloor_le z) as Hf.
  assert (Qfloor z ≤ b)%Z as Hfb.
  { apply Qfloor_resp_le in Hb. by rewrite Qfloor_Z in Hb. }
  assert (0 < z - inject_Z (Qfloor z) → (Qfloor z + 1 ≤ b)%Z) as Hstep.
  { intros Hpos. assert (inject_Z (Qfloor z) < inject_Z b) as Hlt by lra.
    rewrite <- Zlt_Qlt in Hlt. lia. }
  unfold rint.
  destruct (Qcompare_spec (z - inject_Z (Qfloor z)) (1 # 2)) as [He|Hl|Hg].
  - case_match; [done|]. apply Hstep. rewrite He. lra.
  - done.
  - apply Hstep. lra.
Qed.






End SectorTotals.

(** * Further properties of the fetcher *)

Section Records.

Import Fetcher Analyzer Rows.

Local Open Scope Q_scope.

(** X18. The record of a symbol is absent exactly when its price history
    is empty: no missing fundamental makes it absent. *)
Theorem build_record_absent (name : string) (info : Info)
    (hist : list Bar) :
  build_record name info hist = None ↔ hist = [].
Proof.
  split; [|by intros ->].
  destruct hist as [|b hist]; [done|]. unfold build_record.
  destruct (last (b :: hist)) eqn:E; [done|].
  assert (is_Some (last (b :: hist))) as [? Hl] by (by apply last_is_Some).
  congruence.
Qed.

Lemma build_record_fields (name : string) (info : Info) (first : Bar)
    (rest : list Bar) (r : StockRecord) :
  build_record name info (first :: rest) = Some r →
  ∃ latest, last (first :: rest) = Some latest ∧
    symbol r = name ∧ volume r = Volume latest ∧
    currentPrice r = dround2 (as_double (Close latest)) ∧
    pe_ratio r = default (of_Z 0) (trailingPE info) ∧
    roe r = default (of_Z 0) (returnOnEquity info) ∧
    profit_margin r = default (of_Z 0) (profitMargins info) ∧
    momentum_30d r
    = dround2 (if (1 <? length (first :: rest))%nat
               then dmul (ddiv (dsub (as_double (Close latest))
                                  (as_double (Close first)))
                            (as_double (Close first))) (of_Z 100)
               else of_Z 0).
Proof.
  unfold build_record. destruct (last (first :: rest)) as [latest|]; [|done].
  intros [= <-]. by exists latest.
Qed.

(** *** Signs through the arithmetic of doubles *)

Lemma Qpow2_pos (e : Z) : 0 < Qpow2 e.
Proof.
  unfold Qpow2. destruct (0 <=? e)%Z eqn:E; [|done].
  change 0 with (inject_Z 0). rewrite <- Zlt_Qlt.
  apply Z.pow_pos_nonneg; lia.
Qed.

(** Rounding to the nearest double keeps the sign. *)
Lemma double_sign (q : Q) :
  (0 <= q → at_least (double q) 0) ∧ (q <= 0 → at_most (double q) 0).
Proof.
  unfold double. destruct (Qnum q) eqn:Hnum.
  - split; intros _; cbn; lra.
  - assert (0 < q) as Hq by (unfold Qlt; cbn; lia).
    assert (Qle_bool 0 q = true) as -> by (apply Qle_bool_iff; lra).
    split; [intros _|lra].
    set (a := Qabs q).
    set (ulp := Qpow2 (Z.max (exponent a) (-1022) - 52)).
    destruct (Qle_bool _ _); [done|]. cbn. rewrite Qred_correct.
    assert (0 <= a) as Ha by apply Qabs_nonneg.
    pose proof (Qpow2_pos (Z.max (exponent a) (-1022) - 52)) as Hulp.
    fold ulp in Hulp.
    assert (inject_Z 0 <= a / ulp) as H.
    { change (inject_Z 0) with 0. apply Qle_shift_div_l; lra. }
    apply rint_lower in H. rewrite Zle_Qle in H.
    change (inject_Z 0) with 0 in H. nra.
  - assert (q < 0) as Hq by (unfold Qlt; cbn; lia).
    assert (Qle_bool 0 q = false) as ->.
    { destruct (Qle_bool 0 q) eqn:E; [|done].
      apply Qle_bool_iff in E. lra. }
    split; [lra|intros _].
    set (a := Qabs q).
    set (ulp := Qpow2 (Z.max (exponent a) (-1022) - 52)).
    destruct (Qle_bool _ _); [done|]. cbn. rewrite !Qred_correct.
    assert (0 <= a) as Ha by apply Qabs_nonneg.
    pose proof (Qpow2_pos (Z.max (exponent a) (-1022) - 52)) as Hulp.
    fold ulp in Hulp.
    assert (inject_Z 0 <= a / ulp) as H.
    { change (inject_Z 0) with 0. apply Qle_shift_div_l; lra. }
    apply rint_lower in H. rewrite Zle_Qle in H.
    change (inject_Z 0) with 0 in H. nra.
Qed.

Lemma as_double_sign (a : float64) :
  (at_least a 0 → at_least (as_double a) 0) ∧
  (at_most a 0 → at_most (as_double a) 0).
Proof. destruct a as [q| | |]; cbn; [apply double_sign|done..]. Qed.

Lemma ddiv_sign (a : float64) (c : Q) :
  0 < c →
  (at_least a 0 → at_least (ddiv a (Finite c)) 0) ∧
  (at_most a 0 → at_most (ddiv a (Finite c)) 0).
Proof.
  intros Hc. unfold ddiv.
  assert (Qeq_bool c 0 = false) as Hz.
  { destruct (Qeq_bool c 0) eqn:E; [|done]. apply Qeq_bool_eq in E. lra. }
  assert (Qsign c = Lt) as Hs by (by apply Qlt_alt).
  split; intros Ha; apply as_double_sign.
  - destruct a as [x| | |]; cbn in *; [|by rewrite Hs|done..].
    rewrite Hz. cbn. by apply Qle_shift_div_l; lra.
  - destruct a as [x| | |]; cbn in *; [|done|by rewrite Hs|done].
    rewrite Hz. cbn. by apply Qle_shift_div_r; lra.
Qed.

Lemma dmul_100_sign (a : float64) :
  (at_least a 0 → at_least (dmul a (of_Z 100)) 0) ∧
  (at_most a 0 → at_most (dmul a (of_Z 100)) 0).
Proof.
  unfold dmul, of_Z. change (inject_Z 100) with 100.
  split; intros Ha; apply as_double_sign.
  - destruct a as [x| | |]; cbn in *; [lra|done..].
  - destruct a as [x| | |]; cbn in *; [lra|done..].
Qed.

Lemma frint_sign (a : float64) :
  (at_least a 0 → at_least (frint a) 0) ∧
  (at_most a 0 → at_most (frint a) 0).
Proof.
  destruct a as [x| | |]; cbn; [|done..]. split; intros Hx.
  - assert (inject_Z 0 <= x) as H by (by change (inject_Z 0) with 0).
    apply rint_lower in H. rewrite Zle_Qle in H. exact H.
  - assert (x <= inject_Z 0) as H by (by change (inject_Z 0) with 0).
    apply rint_upper in H. rewrite Zle_Qle in H. exact H.
Qed.

Lemma dround2_sign (a : float64) :
  (at_least a 0 → at_least (dround2 a) 0) ∧
  (at_most a 0 → at_most (dround2 a) 0).
Proof.
  unfold dround2, of_Z. change (inject_Z 100) with 100.
  split; intros Ha.
  - apply ddiv_sign; [done|]. by apply frint_sign, dmul_100_sign.
  - apply ddiv_sign; [done|]. by apply frint_sign, dmul_100_sign.
Qed.

(** X19. The record keeps the symbol it was asked for, and the volume of
    the last day; its price is the close of the last day rounded to two
    decimals as numpy rounds a double.  With one day of history the
    momentum is 0, which scores 4.  With more days and a positive first
    close, the momentum is not negative when the price did not fall, and
    not positive when it did not rise; [c0] and [c1] are the doubles of
    the first and of the last close. *)
Theorem build_record_momentum (name : string) (info : Info) (first : Bar)
    (rest : list Bar) (r : StockRecord) :
  build_record name info (first :: rest) = Some r →
  ∃ latest, last (first :: rest) = Some latest ∧
    symbol r = name ∧ volume r = Volume latest ∧
    currentPrice r = dround2 (as_double (Close latest)) ∧
    (rest = [] →
     ∃ q, momentum_30d r = Finite q ∧ q == 0 ∧
          momentum_bucket (momentum_30d r) = 4%Z) ∧
    (∀ c0 c1, rest ≠ [] →
       as_double (Close first) = Finite c0 →
       as_double (Close latest) = Finite c1 → 0 < c0 →
       (c0 <= c1 → at_least (momentum_30d r) 0) ∧
       (c1 <= c0 → at_most (momentum_30d r) 0)).
Proof.
  intros Hr.
  apply build_record_fields in Hr
    as (latest & Hlast & Hsym & Hvol & Hprice & _ & _ & _ & Hmom).
  exists latest. do 4 (split; [done|]). split.
  - intros ->. rewrite Hmom. cbn [length Nat.ltb Nat.leb].
    exists 0. by vm_compute.
  - intros c0 c1 Hrest Hc0 Hc1 Hpos.
    assert ((1 <? length (first :: rest))%nat = true) as Hlen.
    { destruct rest; [done|]. by cbn. }
    rewrite Hmom, Hlen, Hc0, Hc1.
    change (dsub (Finite c1) (Finite c0)) with (double (c1 + - c0)).
    split; intros Hc.
    + apply dround2_sign, dmul_100_sign, ddiv_sign; [done|].
      apply double_sign. lra.
    + apply dround2_sign, dmul_100_sign, ddiv_sign; [done|].
      apply double_sign. lra.
Qed.

Lemma build_record_momentum_witness :
  build_record "TCS" Examples.no_info Examples.one_bar
  = Some Examples.unknown_tcs ∧
  momentum_bucket (momentum_30d Examples.unknown_tcs) = 4%Z ∧
  ∃ r, build_record "TCS" Examples.no_info Examples.two_bars = Some r ∧
       at_least (momentum_30d r) 0.
Proof.
  assert (build_record "TCS" Examples.no_info Examples.one_bar
          = Some Examples.unknown_tcs) as H by reflexivity.
  split; [exact H|]. split.
  - destruct (build_record_momentum _ _ _ _ _ H)
      as (latest & _ & _ & _ & _ & Hone & _).
    destruct (Hone eq_refl) as (q & _ & _ & Hq). exact Hq.
  - destruct (build_record "TCS" Examples.no_info Examples.two_bars)
      as [r|] eqn:E; [|discriminate E].
    exists r. split; [reflexivity|].
    destruct (build_record_momentum _ _ _ _ _ E)
      as (latest & Hlast & _ & _ & _ & _ & Htwo).
    injection Hlast as <-.
    refine (proj1 (Htwo 250 251 _ _ _ _) _);
      [discriminate|by vm_compute|by vm_compute|done|by vm_compute].
Defined.

(** The rounding of a price is that of doubles: the close 1.015 is the
    double just below it, and the price of the record is 1.01, where the
    rounding of the decimal would give 1.02. *)
Lemma build_record_rounds_doubles :
  currentPrice
    <$> build_record "TCS" Examples.no_info
          [ {| Close := Finite 1.015; Volume := 4000 |} ]
  = Some (double 1.01) ∧
  round2 (Finite 1.015) = Finite 1.02.
Proof. split; by vm_compute. Qed.

(** X20. A stock for which the provider sends no [trailingPE] gets the PE
    ratio 0 and with it the PE score 1; one for which it sends neither
    [profitMargins] nor [returnOnEquity] gets the profit score 2. *)
Theorem build_record_missing_fundamentals (name : string) (info : Info)
    (hist : list Bar) (r : StockRecord) :
  build_record name info hist = Some r →
  (trailingPE info = None → calculate_pe_score [r] = [1%Z]) ∧
  (profitMargins info = None → returnOnEquity info = None →
   calculate_profit_score [r] = [2%Z]).
Proof.
  intros Hr. destruct hist as [|first rest]; [done|].
  apply build_record_fields in Hr
    as (latest & _ & _ & _ & _ & Hpe & Hroe & Hpm & _).
  split.
  - intros Hnone. cbn. by rewrite Hpe, Hnone.
  - intros H1 H2. cbn. unfold profit_bucket.
    by rewrite Hpm, Hroe, H1, H2.
Qed.

Lemma build_record_missing_fundamentals_witness :
  build_record "TCS" Examples.no_info Examples.one_bar
  = Some Examples.unknown_tcs ∧
  calculate_pe_score [Examples.unknown_tcs] = [1%Z].
Proof.
  assert (build_record "TCS" Examples.no_info Examples.one_bar
          = Some Examples.unknown_tcs) as H by reflexivity.
  split; [exact H|].
  exact (proj1 (build_record_missing_fundamentals _ _ _ _ H) eq_refl).
Defined.

End Records.

Section Requests.

Import Fetcher Trace.

Context {World : Type}.
Variable provider : string → World → option (Info * list Bar) * World.

Lemma get_stock_details_logged (name : string) (w : World)
    (log : list string) :
  get_stock_details_yfinance (World * list string) (logged provider) name
    (w, log)
  = ((get_stock_details_yfinance World provider name w).1,
     ((get_stock_details_yfinance World provider name w).2,
      log ++ [(name ++ ".NS")%string])).
Proof.
  unfold get_stock_details_yfinance, logged. cbn.
  by destruct (provider (name ++ ".NS")%string w) as [[[info hist]|] w'].
Qed.

Lemma fetch_loop_logged (symbols : list string)
    (stock_data : list StockRecord) (w : World) (log : list string) :
  fetch_loop (World * list string) (logged provider) symbols stock_data
    (w, log)
  = ((fetch_loop World provider symbols stock_data w).1,
     ((fetch_loop World provider symbols stock_data w).2,
      log ++ ((λ s, s ++ ".NS")%string <$> symbols))).
Proof.
  revert stock_data w log.
  induction symbols as [|s symbols IH]; intros stock_data w log.
  - cbn. by rewrite app_nil_r.
  - cbn [fetch_loop]. rewrite get_stock_details_logged.
    destruct (get_stock_details_yfinance World provider s w) as [[r|] w'];
      cbn [fst snd]; rewrite IH, fmap_cons;
      by rewrite <- app_assoc.
Qed.

(** X21. The batch asks the provider once for each symbol of the sliced
    list, in list order, under the name of the symbol followed by ".NS",
    and for nothing else; recording the requests changes neither the
    records nor the state of the world.  With a negative [max_stocks] the
    slice leaves out that many symbols at the end of the list. *)
Theorem get_multiple_stocks_data_requests (symbols : list string)
    (max_stocks : Z) (w : World) :
  get_multiple_stocks_data (World * list string) (logged provider) symbols
    max_stocks (w, [])
  = ((get_multiple_stocks_data World provider symbols max_stocks w).1,
     ((get_multiple_stocks_data World provider symbols max_stocks w).2,
      (λ s, s ++ ".NS")%string <$> slice_to max_stocks symbols)) ∧
  ((0 ≤ max_stocks)%Z →
   slice_to max_stocks symbols = take (Z.to_nat max_stocks) symbols) ∧
  ((max_stocks < 0)%Z →
   slice_to max_stocks symbols
   = take (length symbols - Z.to_nat (- max_stocks)) symbols).
Proof.
  split; [|split].
  - unfold get_multiple_stocks_data. by rewrite fetch_loop_logged.
  - intros H. unfold slice_to.
    by assert ((0 <=? max_stocks)%Z = true) as -> by lia.
  - intros H. unfold slice_to.
    assert ((0 <=? max_stocks)%Z = false) as -> by lia.
    f_equal. lia.
Qed.

Lemma symbol_of_details (name : string) (w : World) (r : StockRecord) :
  (get_stock_details_yfinance World provider name w).1 = Some r →
  symbol r = name.
Proof.
  unfold get_stock_details_yfinance.
  destruct (provider (name ++ ".NS")%string w) as [[[info hist]|] w'];
    cbn; [|done].
  destruct hist as [|first rest]; [done|].
  intros Hr. by apply build_record_fields in Hr as (? & _ & ? & _).
Qed.

Lemma outcomes_symbols (symbols : list string) (w : World) :
  symbol <$> omap id (outcomes World provider symbols w)
    `sublist_of` symbols.
Proof.
  revert w. induction symbols as [|s symbols IH]; intros w; [done|].
  cbn [outcomes].
  destruct (get_stock_details_yfinance World provider s w) as [[r|] w']
    eqn:E; cbn.
  - rewrite (symbol_of_details s w r) by (by rewrite E).
    by apply sublist_skip.
  - by apply sublist_cons.
Qed.

(** X22. The records of a batch carry the symbols they were asked for, in
    the order of the list: their symbols are what is left of the sliced
    list when the symbols that came back absent are taken out. *)
Theorem get_multiple_stocks_data_symbols (symbols : list string)
    (max_stocks : Z) (w : World) :
  symbol <$> (get_multiple_stocks_data World provider symbols max_stocks w).1
    `sublist_of` slice_to max_stocks symbols ∧
  (length (get_multiple_stocks_data World provider symbols max_stocks w).1
   ≤ length symbols)%nat.
Proof.
  unfold get_multiple_stocks_data. rewrite fetch_loop_outcomes. cbn [app].
  split; [apply outcomes_symbols|].
  etrans; [apply omap_id_length|]. rewrite outcomes_length.
  unfold slice_to. case_match; rewrite length_take; lia.
Qed.

End Requests.

Lemma get_multiple_stocks_data_requests_witness :
  (-1 < 0)%Z ∧
  (Fetcher.get_multiple_stocks_data (nat * list string)
     (Trace.logged Examples.only_tcs) [ "INFY"; "TCS"; "WIPRO" ] (-1)
     (0%nat, [])).2.2
  = [ "INFY.NS"; "TCS.NS" ].
Proof.
  assert (-1 < 0)%Z as H by lia. split; [exact H|].
  destruct (get_multiple_stocks_data_requests Examples.only_tcs
              [ "INFY"; "TCS"; "WIPRO" ] (-1) 0%nat) as (Hrun & _ & Hneg).
  rewrite Hrun. cbn [snd]. rewrite (Hneg H). reflexivity.
Defined.

(** * Properties of the index list and of the dashboard *)

Section IndexList.

Import Fetcher Nse App.

Lemma symbols_of_entries (symbols : list string) :
  symbols_of ((λ symbol, {| entry_symbol := Some symbol |}) <$> symbols)
  = Ok symbols.
Proof. induction symbols as [|s symbols IH]; cbn; [done|]. by rewrite IH. Qed.

Lemma symbols_of_cases (stock_list : list StockEntry) :
  match symbols_of stock_list with
  | Ok symbols => entry_symbol <$> stock_list = Some <$> symbols
  | Raise e =>
      e = KeyError "symbol" ∧
      Exists (λ stock, entry_symbol stock = None) stock_list
  end.
Proof.
  induction stock_list as [|[[s|]] l IH]; cbn; [done| |].
  - destruct (symbols_of l) as [symbols|e]; cbn.
    + by rewrite IH.
    + destruct IH as [-> IH]. split; [done|]. by apply Exists_cons_tl.
  - split; [done|]. by apply Exists_cons_hd.
Qed.

(** X23. [get_nse_stocks] raises nothing.  When the request raises, the
    status is not 200 or the payload cannot be read, it returns the
    fallback list: 47 entries, each with a symbol, which read back as the
    47 symbols.  It returns the empty list exactly on a 200 answer whose
    payload has no ['data'] key or an empty ['data'] list. *)
Theorem get_nse_stocks_fallback {World : Type}
    (http : World → HttpOutcome * World) (w : World) :
  ((http w).1 = RequestRaises ∨
   (∃ status json, (http w).1 = Response status json ∧
                   (status ≠ 200%Z ∨ json = Malformed)) →
   (get_nse_stocks World http w).1 = get_fallback_nifty50_stocks) ∧
  length get_fallback_nifty50_stocks = 47%nat ∧
  symbols_of get_fallback_nifty50_stocks = Ok nifty50_symbols ∧
  ((get_nse_stocks World http w).1 = [] ↔
   (http w).1 = Response 200 NoData ∨ (http w).1 = Response 200 (Data [])).
Proof.
  unfold get_nse_stocks. destruct (http w) as [outcome w']. cbn [fst].
  split; [|split; [done|split; [apply symbols_of_entries|]]].
  - intros [->|(status & json & -> & [Hs| ->])]; cbn; [done| |].
    + by assert ((status =? 200)%Z = false) as -> by lia.
    + by destruct (status =? 200)%Z.
  - split.
    + destruct outcome as [|status json]; cbn; [done|].
      destruct (status =? 200)%Z eqn:E; [|done].
      apply Z.eqb_eq in E as ->.
      destruct json as [| |stocks]; [done|by left|].
      intros ->. by right.
    + by intros [->| ->].
Qed.

Lemma get_nse_stocks_fallback_witness :
  (Nse.get_nse_stocks nat (λ w, (Response 503 NoData, S w)) 0%nat).1
  = get_fallback_nifty50_stocks.
Proof.
  apply (proj1 (get_nse_stocks_fallback (λ w, (Response 503 NoData, S w))
                  0%nat)).
  right. exists 503%Z, NoData. split; [reflexivity|]. left. lia.
Defined.

End IndexList.

Section Sidebar.

Import App Pandas Analyzer Rows.

Local Open Scope Q_scope.

(** X25. The sidebar filter of the dashboard is [get_stocks_by_criteria]
    under the four keys [min_pe], [max_pe], [min_momentum] and
    [min_volume]; the recommendations of the first tab are what
    [get_top_stocks] returns with its default arguments; and every
    recommended row is a row of the frame whose PE ratio is a finite
    number within the range of the slider, at most ten of them. *)
Theorem sidebar_filter_criteria (df : list ScoredRecord) (lo hi m : Q)
    (v : Z) :
  sidebar_filter df (lo, hi) m v
  = get_stocks_by_criteria df
      {[ "min_pe" := lo; "max_pe" := hi; "min_momentum" := m;
         "min_volume" := inject_Z v ]} ∧
  get_top_stocks (sidebar_filter df (lo, hi) m v) default_metric
    default_top_n
  = Ok (top_recommendations (sidebar_filter df (lo, hi) m v)) ∧
  (length (top_recommendations (sidebar_filter df (lo, hi) m v)) ≤ 10)%nat ∧
  (∀ r, r ∈ top_recommendations (sidebar_filter df (lo, hi) m v) →
        r ∈ df ∧
        ∃ pe, pe_ratio (base r) = Finite pe ∧ lo <= pe ∧ pe <= hi).
Proof.
  split; [|split; [done|split]].
  - rewrite get_stocks_by_criteria_filter. unfold sidebar_filter.
    apply list_filter_iff. intros r.
    unfold passes_all, passes. cbn [fst snd].
    repeat first
      [ rewrite lookup_insert_eq | rewrite lookup_insert_ne by done
      | rewrite lookup_singleton_eq | rewrite lookup_singleton_ne by done ].
    rewrite Is_true_true, !andb_true_iff. unfold of_Z. tauto.
  - unfold top_recommendations. rewrite nlargest_length. lia.
  - intros r Hr. unfold top_recommendations, nlargest in Hr.
    assert (r ∈ sort_desc (λ r, Finite (overall_score r))
                  (sidebar_filter df (lo, hi) m v)) as Hs.
    { rewrite <- (take_drop (Z.to_nat 10) (sort_desc _ _)).
      apply elem_of_app. by left. }
    clear Hr. rename Hs into Hr. rewrite sort_desc_Permutation in Hr.
    unfold sidebar_filter in Hr. apply list_elem_of_filter in Hr as [Hr Hdf].
    split; [done|].
    apply Is_true_true in Hr. rewrite !andb_true_iff in Hr.
    destruct Hr as [[[Hlo Hhi] _] _]. cbn [fst snd] in Hlo, Hhi.
    apply ge_at_least in Hlo. apply le_at_most in Hhi.
    destruct (pe_ratio (base r)) as [pe| | |]; try done. by exists pe.
Qed.

Lemma sidebar_filter_criteria_witness :
  Examples.scored "B" (Finite 15) 7.2
  ∈ top_recommendations (sidebar_filter Examples.three_pe (10, 20) (-50) 0) ∧
  ∃ pe, pe_ratio (base (Examples.scored "B" (Finite 15) 7.2)) = Finite pe ∧
        10 <= pe ∧ pe <= 20.
Proof.
  assert (Examples.scored "B" (Finite 15) 7.2
          ∈ top_recommendations
              (sidebar_filter Examples.three_pe (10, 20) (-50) 0)) as H
    by apply list_elem_of_here.
  split; [exact H|].
  destruct (sidebar_filter_criteria Examples.three_pe 10 20 (-50) 0)
    as (_ & _ & _ & Hall).
  exact (proj2 (Hall _ H)).
Defined.

End Sidebar.

Lemma overall_score_binary64_witness :
  8%Z ∈ Rows.pe_values ∧ 6%Z ∈ Rows.volume_values ∧
  4%Z ∈ Rows.momentum_values ∧ 7%Z ∈ Rows.profit_values ∧
  Rows.binary64_agrees 8 6 4 7 = true.
Proof.
  assert (8%Z ∈ Rows.pe_values) as H1 by (unfold Rows.pe_values; in_list).
  assert (6%Z ∈ Rows.volume_values) as H2
    by (unfold Rows.volume_values; in_list).
  assert (4%Z ∈ Rows.momentum_values) as H3
    by (unfold Rows.momentum_values; in_list).
  assert (7%Z ∈ Rows.profit_values) as H4
    by (unfold Rows.profit_values; in_list).
  repeat (split; [assumption|]).
  exact (overall_score_binary64 8 6 4 7 H1 H2 H3 H4).
Defined.
